(** * The OVN route-agent handler: endpoint events, role transitions, uninstall

    A shallow embedding of [pkg/routeagent_driver/handlers/ovn]: the methods
    of [Handler] that react to endpoint events and gateway-role transitions,
    and the teardown run by [Stop].

    The Go methods mutate the handler behind a pointer and call into the
    kernel (netlink, iptables, Open vSwitch) and into sibling methods of the
    package.  Here a method is a function in a small state monad [Go]: the
    state holds the handler's fields and a chronological trace of everything
    the method did (collaborator calls, log lines, mutex operations and field
    stores).  What a collaborator answers is read from a [World], a function
    of the trace so far, so that every pattern of failures can be injected. *)

From Stdlib Require Import ZArith.
From stdpp Require Import gmap strings list fin_maps.

Local Open Scope Z_scope.
Local Open Scope string_scope.
Local Open Scope list_scope.
Local Open Scope stdpp_scope.

(** ** Data *)

(** [submV1.Endpoint], reduced to the fields the handler reads. *)
Record EndpointSpec := {
  Backend : string;
  Subnets : list string;
}.

Record Endpoint := {
  Name : string;
  Spec : EndpointSpec;
}.

(** [net.Interface]. *)
Record Interface := {
  Index : Z;
  IfName : string;
}.

(** [netlink.Rule]: the handler only looks at [Table]. *)
Record Rule := {
  Priority : Z;
  Table : Z;
}.

(** Arguments of a format string. *)
Inductive FmtArg :=
| FStr (s : string)
| FInt (z : Z)
| FRule (r : Rule)
| FEndpoint (e : Endpoint).

(** Go's [error]: an error reported by a collaborator, or one wrapped with
    context by [errors.Wrapf]. *)
Inductive error :=
| Errno (msg : string)
| Wrapf (cause : error) (format : string) (args : list FmtArg).

Inductive LogArg :=
| OfVal (v : FmtArg)
| OfErr (e : error).

Inductive Severity := SevInfo | SevError | SevFatal.

(** Calls that leave the methods modelled here: the kernel interfaces, and
    the methods of [Handler] defined in the other files of the package
    ([updateHostNetworkDataplane], [updateGatewayDataplane],
    [cleanupGatewayDataplane], [addNoMasqueradeIPTables],
    [removeNoMasqueradeIPTables]).  Their bodies are not part of this
    development: each is an opaque operation that returns an [error] or nil
    and does not write the fields of [Handler]. *)
Inductive Call :=
| vsctl_DelInternalPort (bridge port : string)
| vsctl_DelBridge (bridge : string)
| netlink_RuleList (family : Z)
| netlink_RuleDel (r : Rule)
| netlink_FlushRouteTable (table : Z)
| ipt_ClearChain (table chain : string)
| ipt_Delete (table chain : string) (rulespec : list string)
| ipt_DeleteChain (table chain : string)
| net_InterfaceByName (name : string)
| netlink_GetDefaultGatewayInterface
| updateHostNetworkDataplane
| updateGatewayDataplane
| cleanupGatewayDataplane
| addNoMasqueradeIPTables (subnet : string)
| removeNoMasqueradeIPTables (subnet : string).

(** Everything a method does, in the order it does it. *)
Inductive Event :=
| Invoke (c : Call)
| Log (sev : Severity) (format : string) (args : list LogArg)
| MutexLock
| MutexUnlock
| StoreCableRoutingInterface (i : option Interface)
| StoreRemoteEndpoint (name : string) (e : Endpoint)
| DeleteRemoteEndpoint (name : string)
| StoreIsGateway (b : bool).

(** The fields of [Handler] (with the embedded [HandlerConfig]) that the
    methods below read or write. *)
Record Handler := {
  ServiceCIDR : list string;
  ClusterCIDR : list string;
  cableRoutingInterface : option Interface;
  remoteEndpoints : gmap string Endpoint;
  isGateway : bool;
}.

Definition set_cableRoutingInterface (i : option Interface) (h : Handler) : Handler :=
  {| ServiceCIDR := ServiceCIDR h; ClusterCIDR := ClusterCIDR h;
     cableRoutingInterface := i;
     remoteEndpoints := remoteEndpoints h;
     isGateway := isGateway h |}.

Definition set_remoteEndpoints (m : gmap string Endpoint) (h : Handler) : Handler :=
  {| ServiceCIDR := ServiceCIDR h; ClusterCIDR := ClusterCIDR h;
     cableRoutingInterface := cableRoutingInterface h;
     remoteEndpoints := m;
     isGateway := isGateway h |}.

Definition set_isGateway (b : bool) (h : Handler) : Handler :=
  {| ServiceCIDR := ServiceCIDR h; ClusterCIDR := ClusterCIDR h;
     cableRoutingInterface := cableRoutingInterface h;
     remoteEndpoints := remoteEndpoints h;
     isGateway := b |}.

Record State := {
  handler : Handler;
  trace : list Event;
}.

(** Constants of the packages [constants], [wireguard] and [netlink] and of
    the other files of this package. *)
Record Constants := {
  RouteAgentInterClusterNetworkTableID : Z;
  RouteAgentHostNetworkTableID : Z;
  FilterTable : string;
  ForwardChain : string;
  NATTable : string;
  PostRoutingChain : string;
  SmPostRoutingChain : string;
  forwardingSubmarinerFWDChain : string;
  ovnK8sSubmarinerBridge : string;
  ovnK8sSubmarinerInterface : string;
  DefaultDeviceName : string;
  FAMILY_V4 : Z;
}.

(** The environment of a run.  Each answer may depend on the trace so far.
    [map_range] is the order in which a [range] over the endpoint map visits
    its entries; Go leaves it unspecified, see [range_ok]. *)
Record World := {
  call_error : list Event -> Call -> option error;
  rules_listed : list Event -> list Rule;
  interface_found : list Event -> Call -> Interface;
  map_range : list Event -> gmap string Endpoint -> list (string * Endpoint);
  OverlappingSubnets : list string -> list string -> list string -> option error;
}.

(** A [range] over a map visits every entry exactly once. *)
Definition range_ok (W : World) : Prop :=
  forall h (m : gmap string Endpoint), map_range W h m ≡ₚ map_to_list m.

(** ** The monad *)

(** A method either returns, or the process exits under it ([Fatalf]). *)
Inductive Outcome (A : Type) :=
| Returns (a : A)
| Exits.
Arguments Returns {A} a.
Arguments Exits {A}.

Definition Go (A : Type) : Type := State -> Outcome A * State.

Definition ret {A} (a : A) : Go A := fun s => (Returns a, s).

Definition bind {A B} (m : Go A) (k : A -> Go B) : Go B :=
  fun s => match m s with
           | (Returns a, s') => k a s'
           | (Exits, s') => (Exits, s')
           end.

Notation "x <- m ;; k" := (bind m (fun x => k))
  (at level 100, m at next level, right associativity).
Notation "m ;;; k" := (bind m (fun _ => k))
  (at level 100, right associativity).

Definition emit (e : Event) : Go unit :=
  fun s => (Returns tt, {| handler := handler s; trace := trace s ++ [e] |}).

Definition get_handler : Go Handler := fun s => (Returns (handler s), s).

Definition put_handler (h : Handler) : Go unit :=
  fun s => (Returns tt, {| handler := h; trace := trace s |}).

Definition exit {A} : Go A := fun s => (Exits, s).

(** The collaborator calls of a trace. *)
Fixpoint calls (t : list Event) : list Call :=
  match t with
  | [] => []
  | Invoke c :: t' => c :: calls t'
  | _ :: t' => calls t'
  end.

(** What a method appended to the trace. *)
Definition events_of {A} (m : Go A) (s : State) : list Event :=
  drop (length (trace s)) (trace (m s).2).

Definition is_nat_exemption (c : Call) : bool :=
  match c with
  | addNoMasqueradeIPTables _ | removeNoMasqueradeIPTables _ => true
  | _ => false
  end.

Section Handler.

Variable K : Constants.
Variable W : World.

(** A call whose only result is an [error]. *)
Definition invoke (c : Call) : Go (option error) :=
  fun s => (Returns (call_error W (trace s) c),
            {| handler := handler s; trace := trace s ++ [Invoke c] |}).

(** [netlink.RuleList]: the rules, or an error. *)
Definition RuleList (family : Z) : Go (list Rule * option error) :=
  fun s => (Returns (match call_error W (trace s) (netlink_RuleList family) with
                     | Some e => ([], Some e)
                     | None => (rules_listed W (trace s), None)
                     end),
            {| handler := handler s;
               trace := trace s ++ [Invoke (netlink_RuleList family)] |}).

(** [net.InterfaceByName], [netlink.GetDefaultGatewayInterface]: an
    interface, or an error. *)
Definition lookup_interface (c : Call) : Go (option Interface * option error) :=
  fun s => (Returns (match call_error W (trace s) c with
                     | Some e => (None, Some e)
                     | None => (Some (interface_found W (trace s) c), None)
                     end),
            {| handler := handler s; trace := trace s ++ [Invoke c] |}).

Definition Infof (format : string) (args : list LogArg) : Go unit :=
  emit (Log SevInfo format args).

Definition Errorf (format : string) (args : list LogArg) : Go unit :=
  emit (Log SevError format args).

(** [logger.Fatalf] logs and terminates the process. *)
Definition Fatalf {A} (format : string) (args : list LogArg) : Go A :=
  emit (Log SevFatal format args) ;;; exit.

(** [ovn.mutex.Lock(); defer ovn.mutex.Unlock()] around the rest of a body. *)
Definition locked {A} (body : Go A) : Go A :=
  emit MutexLock ;;;
  r <- body ;;
  emit MutexUnlock ;;;
  ret r.

Definition store_cableRoutingInterface (i : option Interface) : Go unit :=
  h <- get_handler ;;
  put_handler (set_cableRoutingInterface i h) ;;;
  emit (StoreCableRoutingInterface i).

(** [ovn.remoteEndpoints[name] = e]. *)
Definition store_remoteEndpoint (name : string) (e : Endpoint) : Go unit :=
  h <- get_handler ;;
  put_handler (set_remoteEndpoints (<[name := e]> (remoteEndpoints h)) h) ;;;
  emit (StoreRemoteEndpoint name e).

(** [delete(ovn.remoteEndpoints, name)]. *)
Definition delete_remoteEndpoint (name : string) : Go unit :=
  h <- get_handler ;;
  put_handler (set_remoteEndpoints (delete name (remoteEndpoints h)) h) ;;;
  emit (DeleteRemoteEndpoint name).

Definition store_isGateway (b : bool) : Go unit :=
  h <- get_handler ;;
  put_handler (set_isGateway b h) ;;;
  emit (StoreIsGateway b).

(** ** uninstall.go *)

Definition reserved_table (r : Rule) : bool :=
  ((Table r =? RouteAgentInterClusterNetworkTableID K)%Z
   || (Table r =? RouteAgentHostNetworkTableID K)%Z)%bool.

(** The loop of [cleanupRoutes]; [Some e] is the early [return]. *)
Fixpoint cleanupRoutes_range (rules : list Rule) : Go (option error) :=
  match rules with
  | [] => ret None
  | r :: rest =>
      if reserved_table r then
        err <- invoke (netlink_RuleDel r) ;;
        match err with
        | Some e => ret (Some (Wrapf e "error deleting the rule %v" [FRule r]))
        | None => cleanupRoutes_range rest
        end
      else cleanupRoutes_range rest
  end.

Definition cleanupRoutes : Go (option error) :=
  res <- RuleList (FAMILY_V4 K) ;;
  match res.2 with
  | Some e => ret (Some (Wrapf e "error listing rules" []))
  | None => cleanupRoutes_range res.1
  end.

Definition flushAndDeleteIPTableChains (table tableChain submarinerChain : string)
  : Go unit :=
  Infof "Flushing iptable entries in %q chain of %q table"
        [OfVal (FStr submarinerChain); OfVal (FStr table)] ;;;
  err <- invoke (ipt_ClearChain table submarinerChain) ;;
  match err with
  | Some e => Errorf "Error flushing iptables chain %q of %q table: %v"
                [OfVal (FStr submarinerChain); OfVal (FStr table); OfErr e]
  | None => ret tt
  end ;;;
  Infof "Deleting iptable entry in %q chain of %q table"
        [OfVal (FStr tableChain); OfVal (FStr table)] ;;;
  err <- invoke (ipt_Delete table tableChain ["-j"; submarinerChain]) ;;
  match err with
  | Some e => Errorf "Error deleting iptables rule from %q chain: %v"
                [OfVal (FStr tableChain); OfErr e]
  | None => ret tt
  end ;;;
  Infof "Deleting iptable %q chain of %q table"
        [OfVal (FStr submarinerChain); OfVal (FStr table)] ;;;
  err <- invoke (ipt_DeleteChain table submarinerChain) ;;
  match err with
  | Some e => Errorf "Error deleting iptable chain %q of table %q: %v"
                [OfVal (FStr submarinerChain); OfVal (FStr table); OfErr e]
  | None => ret tt
  end.

Definition Stop (uninstall : bool) : Go (option error) :=
  if negb uninstall then ret None else
  Infof "Uninstalling OVN components from the node" [] ;;;
  err <- invoke (vsctl_DelInternalPort (ovnK8sSubmarinerBridge K)
                                       (ovnK8sSubmarinerInterface K)) ;;
  match err with
  | Some e => Errorf "Error deleting Submariner port %q due to %v"
                [OfVal (FStr (ovnK8sSubmarinerInterface K)); OfErr e]
  | None => ret tt
  end ;;;
  err <- invoke (vsctl_DelBridge (ovnK8sSubmarinerBridge K)) ;;
  match err with
  | Some e => Errorf "Error deleting Submariner bridge %q due to %v"
                [OfVal (FStr (ovnK8sSubmarinerBridge K)); OfErr e]
  | None => ret tt
  end ;;;
  err <- cleanupRoutes ;;
  match err with
  | Some e => Errorf "Error cleaning the routes %v" [OfErr e]
  | None => ret tt
  end ;;;
  err <- invoke (netlink_FlushRouteTable (RouteAgentInterClusterNetworkTableID K)) ;;
  match err with
  | Some e => Errorf "Flushing routing table %d returned error: %v"
                [OfVal (FInt (RouteAgentInterClusterNetworkTableID K)); OfErr e]
  | None => ret tt
  end ;;;
  err <- invoke (netlink_FlushRouteTable (RouteAgentHostNetworkTableID K)) ;;
  match err with
  | Some e => Errorf "Flushing routing table %d returned error: %v"
                [OfVal (FInt (RouteAgentHostNetworkTableID K)); OfErr e]
  | None => ret tt
  end ;;;
  flushAndDeleteIPTableChains (FilterTable K) (ForwardChain K)
                              (forwardingSubmarinerFWDChain K) ;;;
  flushAndDeleteIPTableChains (NATTable K) (PostRoutingChain K)
                              (SmPostRoutingChain K) ;;;
  ret None.

(** ** handler.go *)

(** [for _, subnet := range subnets] around one fallible operation per
    subnet; [Some e] is the early [return] with the wrapped error. *)
Fixpoint range_subnets (op : string -> Call) (format : string)
    (subnets : list string) : Go (option error) :=
  match subnets with
  | [] => ret None
  | subnet :: rest =>
      err <- invoke (op subnet) ;;
      match err with
      | Some e => ret (Some (Wrapf e format [FStr subnet]))
      | None => range_subnets op format rest
      end
  end.

(** The entries of the endpoint map in the order this [range] visits them. *)
Definition range_remoteEndpoints : Go (list (string * Endpoint)) :=
  fun s => (Returns (map_range W (trace s) (remoteEndpoints (handler s))), s).

(** [for _, endpoint := range ovn.remoteEndpoints] around the subnet loop. *)
Fixpoint range_endpoints (op : string -> Call) (format : string)
    (entries : list (string * Endpoint)) : Go (option error) :=
  match entries with
  | [] => ret None
  | (_, endpoint) :: rest =>
      err <- range_subnets op format (Subnets (Spec endpoint)) ;;
      match err with
      | Some e => ret (Some e)
      | None => range_endpoints op format rest
      end
  end.

Definition LocalEndpointCreated (endpoint : Endpoint) : Go (option error) :=
  r <- (if String.eqb (Backend (Spec endpoint)) "wireguard" then
          res <- lookup_interface (net_InterfaceByName (DefaultDeviceName K)) ;;
          match res.2 with
          | Some e =>
              ret (inl (Some (Wrapf e "Wireguard interface %s not found on the node"
                                    [FStr (DefaultDeviceName K)])))
          | None => ret (inr res.1)
          end
        else
          res <- lookup_interface netlink_GetDefaultGatewayInterface ;;
          match res.2 with
          | Some e =>
              Fatalf "Unable to find the default interface on host: %s" [OfErr e]
          | None => ret (inr res.1)
          end) ;;
  match r with
  | inl early => ret early
  | inr routingInterface =>
      locked (store_cableRoutingInterface routingInterface ;;; ret None)
  end.

Definition RemoteEndpointCreated (endpoint : Endpoint) : Go (option error) :=
  h <- get_handler ;;
  match OverlappingSubnets W (ServiceCIDR h) (ClusterCIDR h)
                           (Subnets (Spec endpoint)) with
  | Some err =>
      Errorf "overlappingSubnets for new remote %#v returned error"
             [OfErr err; OfVal (FEndpoint endpoint)] ;;;
      ret None
  | None =>
      locked (
        store_remoteEndpoint (Name endpoint) endpoint ;;;
        err <- invoke updateHostNetworkDataplane ;;
        match err with
        | Some e => ret (Some (Wrapf e "updateHostNetworkDataplane returned error" []))
        | None =>
            h <- get_handler ;;
            if isGateway h then
              err <- range_subnets addNoMasqueradeIPTables
                       "error adding no-masquerade rules for subnet %q"
                       (Subnets (Spec endpoint)) ;;
              match err with
              | Some e => ret (Some e)
              | None => invoke updateGatewayDataplane
              end
            else ret None
        end)
  end.

Definition RemoteEndpointUpdated (endpoint : Endpoint) : Go (option error) :=
  h <- get_handler ;;
  match OverlappingSubnets W (ServiceCIDR h) (ClusterCIDR h)
                           (Subnets (Spec endpoint)) with
  | Some err =>
      Errorf "overlappingSubnets for new remote %#v returned error"
             [OfErr err; OfVal (FEndpoint endpoint)] ;;;
      ret None
  | None =>
      locked (
        store_remoteEndpoint (Name endpoint) endpoint ;;;
        err <- invoke updateHostNetworkDataplane ;;
        match err with
        | Some e => ret (Some (Wrapf e "updateHostNetworkDataplane returned error" []))
        | None =>
            h <- get_handler ;;
            if isGateway h then invoke updateGatewayDataplane else ret None
        end)
  end.

Definition RemoteEndpointRemoved (endpoint : Endpoint) : Go (option error) :=
  locked (
    delete_remoteEndpoint (Name endpoint) ;;;
    err <- invoke updateHostNetworkDataplane ;;
    match err with
    | Some e => ret (Some (Wrapf e "updateHostNetworkDataplane returned error" []))
    | None =>
        h <- get_handler ;;
        if isGateway h then
          err <- range_subnets removeNoMasqueradeIPTables
                   "error removing no-masquerade rules for subnet %q"
                   (Subnets (Spec endpoint)) ;;
          match err with
          | Some e => ret (Some e)
          | None => invoke updateGatewayDataplane
          end
        else ret None
    end).

Definition TransitionToNonGateway : Go (option error) :=
  locked (
    store_isGateway false ;;;
    entries <- range_remoteEndpoints ;;
    err <- range_endpoints removeNoMasqueradeIPTables
             "error removing no-masquerade rules for subnet %q" entries ;;
    match err with
    | Some e => ret (Some e)
    | None => invoke cleanupGatewayDataplane
    end).

Definition TransitionToGateway : Go (option error) :=
  locked (
    store_isGateway true ;;;
    entries <- range_remoteEndpoints ;;
    err <- range_endpoints addNoMasqueradeIPTables
             "error adding no-masquerade rules for subnet %q" entries ;;
    match err with
    | Some e => ret (Some e)
    | None => invoke updateGatewayDataplane
    end).

End Handler.

(** ** Sample environments *)

(** Sample values for the constants, which are declared outside the two
    files modelled here. *)
Definition K0 : Constants := {|
  RouteAgentInterClusterNetworkTableID := 149;
  RouteAgentHostNetworkTableID := 150;
  FilterTable := "filter";
  ForwardChain := "FORWARD";
  NATTable := "nat";
  PostRoutingChain := "POSTROUTING";
  SmPostRoutingChain := "SUBMARINER-POSTROUTING";
  forwardingSubmarinerFWDChain := "SUBMARINER-FORWARD";
  ovnK8sSubmarinerBridge := "ovn-k8s-submariner";
  ovnK8sSubmarinerInterface := "ovn-k8s-sub0";
  DefaultDeviceName := "submariner";
  FAMILY_V4 := 2;
|}.

(** A world in which every call succeeds, [RuleList] answers [rules], no
    subnets overlap, and a map is ranged over in key order. *)
Definition calm (rules : list Rule) : World := {|
  call_error := fun _ _ => None;
  rules_listed := fun _ => rules;
  interface_found := fun _ _ => {| Index := 7; IfName := "submariner" |};
  map_range := fun _ m => map_to_list m;
  OverlappingSubnets := fun _ _ _ => None;
|}.

(** [calm], except that the calls selected by [bad] fail. *)
Definition failing (bad : Call -> bool) (rules : list Rule) : World := {|
  call_error := fun _ c => if bad c then Some (Errno "injected") else None;
  rules_listed := fun _ => rules;
  interface_found := fun _ _ => {| Index := 7; IfName := "submariner" |};
  map_range := fun _ m => map_to_list m;
  OverlappingSubnets := fun _ _ _ => None;
|}.

(** [calm], except that every endpoint is reported as overlapping. *)
Definition overlapping : World := {|
  call_error := fun _ _ => None;
  rules_listed := fun _ => [];
  interface_found := fun _ _ => {| Index := 7; IfName := "submariner" |};
  map_range := fun _ m => map_to_list m;
  OverlappingSubnets := fun _ _ _ => Some (Errno "overlap");
|}.

Definition endpoint_of (name backend : string) (subnets : list string) : Endpoint :=
  {| Name := name; Spec := {| Backend := backend; Subnets := subnets |} |}.

Definition epA : Endpoint := endpoint_of "A" "libreswan" ["10.1.0.0/24"].
Definition epB : Endpoint := endpoint_of "B" "libreswan" ["10.2.0.0/24"].

(** A handler that has logged nothing yet, with the given cluster CIDR, role
    and remote endpoints. *)
Definition state_with (cluster : string) (gw : bool) (eps : list Endpoint) : State := {|
  handler := {| ServiceCIDR := ["100.64.0.0/16"]; ClusterCIDR := [cluster];
                cableRoutingInterface := None;
                remoteEndpoints := list_to_map ((fun e => (Name e, e)) <$> eps);
                isGateway := gw |};
  trace := [];
|}.

(** The cluster CIDR 10.0.0.0/16 overlaps neither 10.1.0.0/24 nor
    10.2.0.0/24. *)
Definition state_of (gw : bool) (eps : list Endpoint) : State :=
  state_with "10.0.0.0/16" gw eps.

(** ** Reasoning about runs *)

(** [runs m s r evs h]: from [s], [m] returns [r], appends [evs] to the trace
    and leaves the handler as [h]. *)
Definition runs {A} (m : Go A) (s : State) (r : A) (evs : list Event)
    (h : Handler) : Prop :=
  m s = (Returns r, {| handler := h; trace := trace s ++ evs |}).

(** The log line of [if err != nil { klog.Errorf(format, args...) }]. *)
Definition error_line (err : option error) (format : string)
    (args : error -> list LogArg) : list Event :=
  match err with
  | Some e => [Log SevError format (args e)]
  | None => []
  end.

Lemma calls_app t1 t2 : calls (t1 ++ t2) = calls t1 ++ calls t2.
Proof.
  induction t1 as [|e t1 IH]; [done|].
  destruct e; simpl; by rewrite ?IH.
Qed.

Lemma calls_Invoke cs : calls (Invoke <$> cs) = cs.
Proof. induction cs as [|c cs IH]; [done|]. rewrite fmap_cons. simpl. by f_equal. Qed.

Lemma calls_error_line err format args : calls (error_line err format args) = [].
Proof. by destruct err. Qed.

Lemma state_eta s : {| handler := handler s; trace := trace s |} = s.
Proof. by destruct s. Qed.

Lemma runs_events_of {A} (m : Go A) s r evs h :
  runs m s r evs h -> events_of m s = evs.
Proof.
  unfold runs, events_of. intros ->. simpl. by rewrite drop_app_length.
Qed.

Lemma runs_result {A} (m : Go A) s r evs h :
  runs m s r evs h ->
  (m s).1 = Returns r /\ handler (m s).2 = h /\ trace (m s).2 = trace s ++ evs.
Proof. unfold runs. by intros ->. Qed.

Lemma runs_ret {A} (a : A) s h : h = handler s -> runs (ret a) s a [] h.
Proof. intros ->. unfold runs, ret. by rewrite app_nil_r, state_eta. Qed.

Lemma runs_bind {A B} (m : Go A) (k : A -> Go B) s a e1 h1 b e2 h2 :
  runs m s a e1 h1 ->
  runs (k a) {| handler := h1; trace := trace s ++ e1 |} b e2 h2 ->
  runs (bind m k) s b (e1 ++ e2) h2.
Proof.
  unfold runs, bind. intros -> ->. simpl. by rewrite app_assoc.
Qed.

Lemma runs_emit e s h : h = handler s -> runs (emit e) s tt [e] h.
Proof. by intros ->. Qed.

(** [runs_bind] for goals that still quantify over the events: what the
    continuation appends is only chosen once [m] has run. *)
Lemma runs_bind_ex {A B} (m : Go A) (k : A -> Go B) s a e1 h1 b h2
    (P : list Event -> Prop) :
  runs m s a e1 h1 ->
  (exists e2, runs (k a) {| handler := h1; trace := trace s ++ e1 |} b e2 h2
              /\ P (e1 ++ e2)) ->
  exists evs, runs (bind m k) s b evs h2 /\ P evs.
Proof.
  intros Hm (e2 & Hk & HP). exists (e1 ++ e2). split; [|done].
  by eapply runs_bind.
Qed.

Lemma runs_ret_ex {A} (a : A) s h (P : list Event -> Prop) :
  h = handler s -> P [] -> exists evs, runs (ret a) s a evs h /\ P evs.
Proof. intros -> HP. exists []. split; [by apply runs_ret|done]. Qed.

Section Runs.

Variable K : Constants.
Variable W : World.

Lemma runs_invoke c s h :
  h = handler s ->
  runs (invoke W c) s (call_error W (trace s) c) [Invoke c] h.
Proof. by intros ->. Qed.

Lemma runs_error_line err format args s h :
  h = handler s ->
  runs (match err with
        | Some e => Errorf format (args e)
        | None => ret tt
        end) s tt (error_line err format args) h.
Proof. intros ->. destruct err; [by apply runs_emit | by apply runs_ret]. Qed.

(** *** Loops that return at the first failure *)

(** A loop runs [op] on the items of [all] in order and returns the error of
    the first failing call, wrapped by [wrap].  [attempted] is what it tried,
    starting from the trace [t]: everything when it returned no error, and
    otherwise the items up to and including the one whose call failed. *)
Definition stops_at_first_failure {A} (op : A -> Call) (wrap : error -> A -> error)
    (t : list Event) (all attempted : list A) (err : option error) : Prop :=
  exists skipped,
    all = attempted ++ skipped
    /\ match err with
       | None => skipped = []
       | Some e =>
           exists done_ x cause,
             attempted = done_ ++ [x]
             /\ e = wrap cause x
             /\ call_error W (t ++ (Invoke <$> (op <$> done_))) (op x) = Some cause
       end.

Lemma stops_cons {A} (op : A -> Call) wrap t x all attempted err :
  stops_at_first_failure op wrap (t ++ [Invoke (op x)]) all attempted err ->
  stops_at_first_failure op wrap t (x :: all) (x :: attempted) err.
Proof.
  intros (skipped & -> & Herr). exists skipped. split; [done|].
  destruct err as [e|]; [|done].
  destruct Herr as (done_ & y & cause & -> & -> & Hcause).
  exists (x :: done_), y, cause. split; [done|split; [done|]].
  rewrite !fmap_cons. by rewrite <- app_assoc in Hcause.
Qed.

Lemma stops_first_fails {A} (op : A -> Call) wrap t x all cause :
  call_error W t (op x) = Some cause ->
  stops_at_first_failure op wrap t (x :: all) [x] (Some (wrap cause x)).
Proof.
  intros Hc. exists all. split; [done|].
  exists [], x, cause. simpl. by rewrite app_nil_r.
Qed.

Lemma stops_app {A} (op : A -> Call) wrap t l1 l2 attempted err :
  stops_at_first_failure op wrap (t ++ (Invoke <$> (op <$> l1))) l2 attempted err ->
  stops_at_first_failure op wrap t (l1 ++ l2) (l1 ++ attempted) err.
Proof.
  revert t. induction l1 as [|x l1 IH]; intros t H.
  - simpl in H. by rewrite app_nil_r in H.
  - simpl. apply stops_cons. apply IH.
    rewrite !fmap_cons in H. by rewrite <- app_assoc.
Qed.

Lemma stops_more {A} (op : A -> Call) wrap t l1 l2 attempted e :
  stops_at_first_failure op wrap t l1 attempted (Some e) ->
  stops_at_first_failure op wrap t (l1 ++ l2) attempted (Some e).
Proof.
  intros (skipped & -> & Herr). exists (skipped ++ l2).
  by rewrite app_assoc.
Qed.

(** When no call of the loop can fail, the loop returns no error and has
    tried everything. *)
Lemma stops_no_failure {A} (op : A -> Call) wrap t all attempted err :
  (forall h x, call_error W h (op x) = None) ->
  stops_at_first_failure op wrap t all attempted err ->
  err = None /\ attempted = all.
Proof.
  intros Hok (skipped & -> & Herr). destruct err as [e|].
  - destruct Herr as (done_ & x & cause & _ & _ & Hcause).
    by rewrite Hok in Hcause.
  - subst skipped. by rewrite app_nil_r.
Qed.

Definition wrap_RuleDel (cause : error) (r : Rule) : error :=
  Wrapf cause "error deleting the rule %v" [FRule r].

(** The loop of [cleanupRoutes] deletes the reserved rules in list order and
    stops at the first deletion that fails. *)
Lemma cleanupRoutes_range_runs rules s :
  exists err attempted,
    runs (cleanupRoutes_range K W rules) s err
         (Invoke <$> (netlink_RuleDel <$> attempted)) (handler s)
    /\ stops_at_first_failure netlink_RuleDel wrap_RuleDel (trace s)
         (filter (fun r => reserved_table K r = true) rules) attempted err.
Proof.
  revert s. induction rules as [|r rules IH]; intros s.
  - exists None, []. split; [by apply runs_ret|]. by exists [].
  - simpl. rewrite filter_cons. destruct (reserved_table K r) eqn:Hr.
    + rewrite decide_True by congruence.
      destruct (call_error W (trace s) (netlink_RuleDel r)) as [cause|] eqn:Hc.
      * exists (Some (wrap_RuleDel cause r)), [r]. split.
        -- eapply (runs_bind _ _ _ _ [_] _ _ []); [by apply runs_invoke|].
           rewrite Hc. by apply runs_ret.
        -- by apply stops_first_fails.
      * destruct (IH {| handler := handler s;
                        trace := trace s ++ [Invoke (netlink_RuleDel r)] |})
          as (err & attempted & Hrun & Hstops).
        exists err, (r :: attempted). split.
        -- rewrite !fmap_cons.
           eapply (runs_bind _ _ _ _ [_]); [by apply runs_invoke|].
           rewrite Hc. exact Hrun.
        -- by apply stops_cons.
    + rewrite decide_False by congruence.
      apply IH.
Qed.

Lemma cleanupRoutes_runs s :
  exists err attempted,
    runs (cleanupRoutes K W) s err
         (Invoke (netlink_RuleList (FAMILY_V4 K))
            :: (Invoke <$> (netlink_RuleDel <$> attempted))) (handler s)
    /\ match call_error W (trace s) (netlink_RuleList (FAMILY_V4 K)) with
       | Some cause =>
           attempted = [] /\ err = Some (Wrapf cause "error listing rules" [])
       | None =>
           stops_at_first_failure netlink_RuleDel wrap_RuleDel
             (trace s ++ [Invoke (netlink_RuleList (FAMILY_V4 K))])
             (filter (fun r => reserved_table K r = true) (rules_listed W (trace s)))
             attempted err
       end.
Proof.
  unfold cleanupRoutes.
  destruct (call_error W (trace s) (netlink_RuleList (FAMILY_V4 K)))
    as [cause|] eqn:Hl.
  - exists (Some (Wrapf cause "error listing rules" [])), []. split; [|done].
    unfold runs, bind, RuleList. by rewrite Hl.
  - destruct (cleanupRoutes_range_runs (rules_listed W (trace s))
                {| handler := handler s;
                   trace := trace s ++ [Invoke (netlink_RuleList (FAMILY_V4 K))] |})
      as (err & attempted & Hrun & Hstops).
    exists err, attempted. split; [|done].
    unfold runs, bind, RuleList. rewrite Hl. simpl.
    unfold runs in Hrun. simpl in Hrun. rewrite Hrun.
    by rewrite <- app_assoc.
Qed.

(** *** The loops over subnets and endpoints *)

Definition wrap_subnet (format : string) (cause : error) (subnet : string) : error :=
  Wrapf cause format [FStr subnet].

Lemma range_subnets_runs op format subnets s :
  exists err attempted,
    runs (range_subnets W op format subnets) s err
         (Invoke <$> (op <$> attempted)) (handler s)
    /\ stops_at_first_failure op (wrap_subnet format) (trace s)
         subnets attempted err.
Proof.
  revert s. induction subnets as [|x subnets IH]; intros s.
  - exists None, []. split; [by apply runs_ret|]. by exists [].
  - simpl.
    destruct (call_error W (trace s) (op x)) as [cause|] eqn:Hc.
    + exists (Some (wrap_subnet format cause x)), [x]. split.
      * eapply (runs_bind _ _ _ _ [_] _ _ []); [by apply runs_invoke|].
        rewrite Hc. by apply runs_ret.
      * by apply stops_first_fails.
    + destruct (IH {| handler := handler s; trace := trace s ++ [Invoke (op x)] |})
        as (err & attempted & Hrun & Hstops).
      exists err, (x :: attempted). split.
      * rewrite !fmap_cons.
        eapply (runs_bind _ _ _ _ [_]); [by apply runs_invoke|].
        rewrite Hc. exact Hrun.
      * by apply stops_cons.
Qed.

(** The subnets of the entries of the endpoint map, in order. *)
Definition all_subnets (entries : list (string * Endpoint)) : list string :=
  concat ((fun kv => Subnets (Spec kv.2)) <$> entries).

Lemma range_endpoints_runs op format entries s :
  exists err attempted,
    runs (range_endpoints W op format entries) s err
         (Invoke <$> (op <$> attempted)) (handler s)
    /\ stops_at_first_failure op (wrap_subnet format) (trace s)
         (all_subnets entries) attempted err.
Proof.
  revert s. induction entries as [|[name endpoint] entries IH]; intros s.
  - exists None, []. split; [by apply runs_ret|]. by exists [].
  - simpl.
    destruct (range_subnets_runs op format (Subnets (Spec endpoint)) s)
      as (err1 & att1 & Hrun1 & Hstops1).
    unfold all_subnets. rewrite fmap_cons. simpl.
    destruct err1 as [e|].
    + exists (Some e), att1. split.
      * rewrite <- (app_nil_r (Invoke <$> _)).
        eapply runs_bind; [exact Hrun1|]. by apply runs_ret.
      * by apply stops_more.
    + destruct Hstops1 as (skipped & Heq & ->). rewrite app_nil_r in Heq.
      subst att1.
      destruct (IH {| handler := handler s;
                      trace := trace s ++ (Invoke <$> (op <$> Subnets (Spec endpoint))) |})
        as (err & att2 & Hrun2 & Hstops2).
      exists err, (Subnets (Spec endpoint) ++ att2). split.
      * rewrite !fmap_app. eapply runs_bind; [exact Hrun1|exact Hrun2].
      * by apply stops_app.
Qed.

(** *** Steps that leave the handler alone *)

(** [quiet m cs]: from every state [m] returns, leaves the handler alone and
    issues exactly the calls [cs], whatever they answer. *)
Definition quiet {A} (m : Go A) (cs : list Call) : Prop :=
  forall s, exists a evs, runs m s a evs (handler s) /\ calls evs = cs.

Lemma quiet_emit_log sev format args : quiet (emit (Log sev format args)) [].
Proof. intros s. exists tt, [Log sev format args]. split; [by apply runs_emit|done]. Qed.

Lemma quiet_invoke c : quiet (invoke W c) [c].
Proof. intros s. eexists _, _. split; [by apply runs_invoke|done]. Qed.

Lemma quiet_error_line (err : option error) format args :
  quiet (match err with
         | Some e => Errorf format (args e)
         | None => ret tt
         end) [].
Proof.
  intros s. eexists _, _. split; [by apply runs_error_line|].
  apply calls_error_line.
Qed.

Lemma quiet_bind {A B} (m : Go A) (k : A -> Go B) c1 c2 :
  quiet m c1 -> (forall a, quiet (k a) c2) -> quiet (bind m k) (c1 ++ c2).
Proof.
  intros Hm Hk s.
  destruct (Hm s) as (a & e1 & Hrun1 & Hc1).
  destruct (Hk a {| handler := handler s; trace := trace s ++ e1 |})
    as (b & e2 & Hrun2 & Hc2).
  exists b, (e1 ++ e2). split; [by eapply runs_bind|].
  by rewrite calls_app, Hc1, Hc2.
Qed.

(** Running a quiet step in front of a continuation. *)
Lemma bind_quiet {A B} (m : Go A) (k : A -> Go B) cs s b h
    (P : list Event -> Prop) :
  quiet m cs ->
  (forall a evs, calls evs = cs ->
     exists e2, runs (k a) {| handler := handler s; trace := trace s ++ evs |}
                     b e2 h
                /\ P (evs ++ e2)) ->
  exists evs, runs (bind m k) s b evs h /\ P evs.
Proof.
  intros Hm Hk. destruct (Hm s) as (a & e1 & Hrun & Hc).
  eapply runs_bind_ex; [exact Hrun|]. by apply Hk.
Qed.

Lemma flushAndDeleteIPTableChains_quiet table tableChain submarinerChain :
  quiet (flushAndDeleteIPTableChains W table tableChain submarinerChain)
        [ipt_ClearChain table submarinerChain;
         ipt_Delete table tableChain ["-j"; submarinerChain];
         ipt_DeleteChain table submarinerChain].
Proof.
  unfold flushAndDeleteIPTableChains, Infof.
  apply (quiet_bind _ _ [] [_; _; _]); [apply quiet_emit_log|intros _].
  apply (quiet_bind _ _ [_] [_; _]); [apply quiet_invoke|intros err1].
  apply (quiet_bind _ _ [] [_; _]); [apply quiet_error_line|intros _].
  apply (quiet_bind _ _ [] [_; _]); [apply quiet_emit_log|intros _].
  apply (quiet_bind _ _ [_] [_]); [apply quiet_invoke|intros err2].
  apply (quiet_bind _ _ [] [_]); [apply quiet_error_line|intros _].
  apply (quiet_bind _ _ [] [_]); [apply quiet_emit_log|intros _].
  apply (quiet_bind _ _ [_] []); [apply quiet_invoke|intros err3].
  apply quiet_error_line.
Qed.

(** *** [Stop] *)

(** The shape of what [Stop(true)] appends from [s]: the two bridge calls,
    the run of [cleanupRoutes] with the line logged for its error, and the
    two flushes and two chain teardowns. *)
Definition teardown (s : State) (evs : list Event) : Prop :=
  exists pre err attempted post,
    evs = pre
          ++ (Invoke (netlink_RuleList (FAMILY_V4 K))
                :: (Invoke <$> (netlink_RuleDel <$> attempted)))
          ++ error_line err "Error cleaning the routes %v" (fun e => [OfErr e])
          ++ post
    /\ calls pre = [vsctl_DelInternalPort (ovnK8sSubmarinerBridge K)
                                          (ovnK8sSubmarinerInterface K);
                    vsctl_DelBridge (ovnK8sSubmarinerBridge K)]
    /\ runs (cleanupRoutes K W)
            {| handler := handler s; trace := trace s ++ pre |} err
            (Invoke (netlink_RuleList (FAMILY_V4 K))
               :: (Invoke <$> (netlink_RuleDel <$> attempted))) (handler s)
    /\ match call_error W (trace s ++ pre) (netlink_RuleList (FAMILY_V4 K)) with
       | Some cause =>
           attempted = [] /\ err = Some (Wrapf cause "error listing rules" [])
       | None =>
           stops_at_first_failure netlink_RuleDel wrap_RuleDel
             ((trace s ++ pre) ++ [Invoke (netlink_RuleList (FAMILY_V4 K))])
             (filter (fun r => reserved_table K r = true)
                     (rules_listed W (trace s ++ pre)))
             attempted err
       end
    /\ calls post =
         [netlink_FlushRouteTable (RouteAgentInterClusterNetworkTableID K);
          netlink_FlushRouteTable (RouteAgentHostNetworkTableID K);
          ipt_ClearChain (FilterTable K) (forwardingSubmarinerFWDChain K);
          ipt_Delete (FilterTable K) (ForwardChain K)
                     ["-j"; forwardingSubmarinerFWDChain K];
          ipt_DeleteChain (FilterTable K) (forwardingSubmarinerFWDChain K);
          ipt_ClearChain (NATTable K) (SmPostRoutingChain K);
          ipt_Delete (NATTable K) (PostRoutingChain K)
                     ["-j"; SmPostRoutingChain K];
          ipt_DeleteChain (NATTable K) (SmPostRoutingChain K)].

Lemma Stop_runs s :
  exists evs, runs (Stop K W true) s None evs (handler s) /\ teardown s evs.
Proof.
  unfold Stop, Infof. simpl negb. cbv iota.
  eapply bind_quiet; [apply quiet_emit_log|intros _ ev0 H0].
  eapply bind_quiet; [apply quiet_invoke|intros err1 ev1 H1]; cbn [handler trace].
  eapply bind_quiet; [apply quiet_error_line|intros _ ev2 H2]; cbn [handler trace].
  eapply bind_quiet; [apply quiet_invoke|intros err3 ev3 H3]; cbn [handler trace].
  eapply bind_quiet; [apply quiet_error_line|intros _ ev4 H4]; cbn [handler trace].
  match goal with
  | |- exists _, runs _ ?s1 _ _ _ /\ _ =>
      destruct (cleanupRoutes_runs s1) as (err & attempted & Hclean & Hshape)
  end.
  cbn [handler trace] in Hclean, Hshape.
  eapply runs_bind_ex; [exact Hclean|].
  eapply runs_bind_ex; [by apply runs_error_line|]; cbn [handler trace].
  eapply bind_quiet; [apply quiet_invoke|intros err6 ev6 H6]; cbn [handler trace].
  eapply bind_quiet; [apply quiet_error_line|intros _ ev7 H7]; cbn [handler trace].
  eapply bind_quiet; [apply quiet_invoke|intros err8 ev8 H8]; cbn [handler trace].
  eapply bind_quiet; [apply quiet_error_line|intros _ ev9 H9]; cbn [handler trace].
  eapply bind_quiet; [apply flushAndDeleteIPTableChains_quiet|intros _ ev10 H10];
    cbn [handler trace].
  eapply bind_quiet; [apply flushAndDeleteIPTableChains_quiet|intros _ ev11 H11];
    cbn [handler trace].
  apply runs_ret_ex; [done|].
  exists (ev0 ++ ev1 ++ ev2 ++ ev3 ++ ev4), err, attempted,
    (ev6 ++ ev7 ++ ev8 ++ ev9 ++ ev10 ++ ev11).
  rewrite <- !app_assoc in Hclean, Hshape.
  split; [|split; [|split; [|split]]].
  - rewrite app_nil_r, <- !app_assoc. reflexivity.
  - by rewrite !calls_app, H0, H1, H2, H3, H4.
  - exact Hclean.
  - exact Hshape.
  - by rewrite !calls_app, H6, H7, H8, H9, H10, H11.
Qed.

End Runs.

(** ** Endpoint events and role transitions *)

Section HandlerRuns.

Variable K : Constants.
Variable W : World.

Lemma runs_locked {A} (body : Go A) s r evs h :
  runs body {| handler := handler s; trace := trace s ++ [MutexLock] |} r evs h ->
  runs (locked body) s r (MutexLock :: evs ++ [MutexUnlock]) h.
Proof.
  unfold runs, locked, bind, emit, ret. simpl. intros ->. simpl.
  by rewrite <- !app_assoc.
Qed.

Lemma runs_store_isGateway b s :
  runs (store_isGateway b) s tt [StoreIsGateway b] (set_isGateway b (handler s)).
Proof. done. Qed.

(** The tail shared by the two transitions: the result and the events after
    the loop over the endpoints returned [err]. *)
Definition then_reconcile (t : list Event) (err : option error) (final : Call)
  : option error * list Event :=
  match err with
  | Some e => (Some e, [])
  | None => (call_error W t final, [Invoke final])
  end.

(** Both transitions have this body: store the flag, visit every subnet of
    every endpoint, and reconcile if no operation failed. *)
Definition transition (b : bool) (op : string -> Call) (format : string)
    (final : Call) : Go (option error) :=
  locked (
    store_isGateway b ;;;
    entries <- range_remoteEndpoints W ;;
    err <- range_endpoints W op format entries ;;
    match err with
    | Some e => ret (Some e)
    | None => invoke W final
    end).

Lemma TransitionToGateway_transition :
  TransitionToGateway W
  = transition true addNoMasqueradeIPTables
      "error adding no-masquerade rules for subnet %q" updateGatewayDataplane.
Proof. reflexivity. Qed.

Lemma TransitionToNonGateway_transition :
  TransitionToNonGateway W
  = transition false removeNoMasqueradeIPTables
      "error removing no-masquerade rules for subnet %q" cleanupGatewayDataplane.
Proof. reflexivity. Qed.

Lemma transition_runs b op format final s :
  let t := trace s ++ [MutexLock; StoreIsGateway b] in
  exists err attempted,
    runs (transition b op format final) s
         (then_reconcile (t ++ (Invoke <$> (op <$> attempted))) err final).1
         ([MutexLock; StoreIsGateway b]
          ++ (Invoke <$> (op <$> attempted))
          ++ (then_reconcile (t ++ (Invoke <$> (op <$> attempted))) err final).2
          ++ [MutexUnlock])
         (set_isGateway b (handler s))
    /\ stops_at_first_failure W op (wrap_subnet format) t
         (all_subnets (map_range W t (remoteEndpoints (handler s))))
         attempted err.
Proof.
  intros t.
  destruct (range_endpoints_runs W op format
              (map_range W t (remoteEndpoints (handler s)))
              {| handler := set_isGateway b (handler s); trace := t |})
    as (err & attempted & Hrun & Hstops).
  exists err, attempted. split; [|exact Hstops].
  change ([MutexLock; StoreIsGateway b] ++ ?x) with (MutexLock :: ([StoreIsGateway b] ++ x)).
  rewrite !app_assoc. apply runs_locked. rewrite <- !app_assoc.
  eapply runs_bind; [apply runs_store_isGateway|].
  unfold bind at 1. unfold range_remoteEndpoints. cbn [handler trace remoteEndpoints set_isGateway].
  subst t. rewrite <- !app_assoc in *. simpl in *.
  eapply runs_bind; [exact Hrun|].
  cbn [handler trace].
  destruct err as [e|]; simpl.
  - by apply runs_ret.
  - rewrite <- !app_assoc. simpl. by apply runs_invoke.
Qed.

(** *** Steps that leave the handler alone, whatever they call *)

Definition keeps {A} (m : Go A) : Prop :=
  forall s, exists a evs, runs m s a evs (handler s).

Lemma keeps_ret {A} (a : A) : keeps (ret a).
Proof. intros s. exists a, []. by apply runs_ret. Qed.

Lemma keeps_invoke c : keeps (invoke W c).
Proof. intros s. eexists _, _. by apply runs_invoke. Qed.

Lemma keeps_bind {A B} (m : Go A) (k : A -> Go B) :
  keeps m -> (forall a, keeps (k a)) -> keeps (bind m k).
Proof.
  intros Hm Hk s. destruct (Hm s) as (a & e1 & H1).
  destruct (Hk a {| handler := handler s; trace := trace s ++ e1 |})
    as (b & e2 & H2).
  exists b, (e1 ++ e2). by eapply runs_bind.
Qed.

Lemma keeps_get_handler {A} (k : Handler -> Go A) :
  (forall h, keeps (k h)) -> keeps (bind get_handler k).
Proof.
  intros Hk s. destruct (Hk (handler s) s) as (a & evs & Hrun).
  exists a, evs. unfold runs, bind, get_handler. exact Hrun.
Qed.

Lemma keeps_range_subnets op format subnets :
  keeps (range_subnets W op format subnets).
Proof.
  intros s.
  destruct (range_subnets_runs W op format subnets s) as (err & att & Hrun & _).
  by eexists _, _.
Qed.

(** A body that takes the lock, stores into the handler and then only runs
    steps that leave the handler alone ends with the handler as stored,
    whether it returns an error or not. *)
Lemma locked_store_then_keeps {A} (store : Go unit) (rest : Go A) s ev h :
  runs store {| handler := handler s; trace := trace s ++ [MutexLock] |} tt ev h ->
  keeps rest ->
  exists r evs, runs (locked (store ;;; rest)) s r evs h.
Proof.
  intros Hstore Hrest.
  destruct (Hrest {| handler := h; trace := (trace s ++ [MutexLock]) ++ ev |})
    as (r & evs & Hrun).
  exists r, (MutexLock :: (ev ++ evs) ++ [MutexUnlock]).
  apply runs_locked. by eapply runs_bind.
Qed.

Lemma runs_get_handler {A} (k : Handler -> Go A) s r evs h :
  runs (k (handler s)) s r evs h -> runs (bind get_handler k) s r evs h.
Proof. done. Qed.

Lemma get_handler_ex {A} (k : Handler -> Go A) s h :
  (exists r evs, runs (k (handler s)) s r evs h) ->
  exists r evs, runs (bind get_handler k) s r evs h.
Proof. intros (r & evs & Hrun). by exists r, evs. Qed.

Ltac keeps_steps :=
  repeat match goal with
         | |- keeps (ret _) => apply keeps_ret
         | |- keeps (invoke _ _) => apply keeps_invoke
         | |- keeps (range_subnets _ _ _ _) => apply keeps_range_subnets
         | |- keeps (bind get_handler _) => apply keeps_get_handler; intros ?
         | |- keeps (bind _ _) => apply keeps_bind; [|intros ?]
         | |- keeps (match ?x with _ => _ end) => destruct x
         end.

Lemma RemoteEndpointCreated_stores ep s :
  OverlappingSubnets W (ServiceCIDR (handler s)) (ClusterCIDR (handler s))
                     (Subnets (Spec ep)) = None ->
  exists r evs,
    runs (RemoteEndpointCreated W ep) s r evs
         (set_remoteEndpoints (<[Name ep := ep]> (remoteEndpoints (handler s)))
                              (handler s)).
Proof.
  intros Hov. unfold RemoteEndpointCreated. apply get_handler_ex. rewrite Hov.
  eapply locked_store_then_keeps; [reflexivity|].
  keeps_steps.
Qed.

Lemma RemoteEndpointUpdated_stores ep s :
  OverlappingSubnets W (ServiceCIDR (handler s)) (ClusterCIDR (handler s))
                     (Subnets (Spec ep)) = None ->
  exists r evs,
    runs (RemoteEndpointUpdated W ep) s r evs
         (set_remoteEndpoints (<[Name ep := ep]> (remoteEndpoints (handler s)))
                              (handler s)).
Proof.
  intros Hov. unfold RemoteEndpointUpdated. apply get_handler_ex. rewrite Hov.
  eapply locked_store_then_keeps; [reflexivity|].
  keeps_steps.
Qed.

Lemma RemoteEndpointRemoved_deletes ep s :
  exists r evs,
    runs (RemoteEndpointRemoved W ep) s r evs
         (set_remoteEndpoints (delete (Name ep) (remoteEndpoints (handler s)))
                              (handler s)).
Proof.
  unfold RemoteEndpointRemoved.
  eapply locked_store_then_keeps; [reflexivity|].
  keeps_steps.
Qed.

(** An endpoint that overlaps is only logged. *)
Lemma overlap_runs (rest : Go (option error)) ep s e :
  OverlappingSubnets W (ServiceCIDR (handler s)) (ClusterCIDR (handler s))
                     (Subnets (Spec ep)) = Some e ->
  runs (h <- get_handler ;;
        match OverlappingSubnets W (ServiceCIDR h) (ClusterCIDR h)
                                 (Subnets (Spec ep)) with
        | Some err =>
            Errorf "overlappingSubnets for new remote %#v returned error"
                   [OfErr err; OfVal (FEndpoint ep)] ;;;
            ret None
        | None => rest
        end) s None
       [Log SevError "overlappingSubnets for new remote %#v returned error"
            [OfErr e; OfVal (FEndpoint ep)]]
       (handler s).
Proof.
  intros Hov. unfold runs, bind, get_handler. by rewrite Hov.
Qed.


Lemma all_subnets_Permutation l1 l2 :
  l1 ≡ₚ l2 -> all_subnets l1 ≡ₚ all_subnets l2.
Proof.
  unfold all_subnets. induction 1 as [|x l1 l2 _ IH|x y l|l1 l2 l3 _ IH1 _ IH2].
  - done.
  - rewrite !fmap_cons. simpl. by rewrite IH.
  - rewrite !fmap_cons. simpl. rewrite !app_assoc.
    by rewrite (Permutation_app_comm (Subnets (Spec y.2))).
  - by rewrite IH1.
Qed.

Lemma all_subnets_length l :
  length (all_subnets l) = sum_list ((fun kv => length (Subnets (Spec kv.2))) <$> l).
Proof.
  unfold all_subnets. induction l as [|kv l IH]; [done|].
  rewrite !fmap_cons. simpl. by rewrite length_app, IH.
Qed.

Lemma filter_nat_exemption_all (op : string -> Call) (subnets : list string) :
  (forall x, is_nat_exemption (op x) = true) ->
  filter (fun c => is_nat_exemption c = true) (op <$> subnets) = op <$> subnets.
Proof.
  intros Hop. induction subnets as [|x l IH]; [done|].
  rewrite fmap_cons, filter_cons, decide_True by apply Hop. by rewrite IH.
Qed.

End HandlerRuns.

(** ** Uninstall *)

(** The calls [Stop(true)] issues after the rule cleanup. *)
Definition flush_and_chain_calls (K : Constants) : list Call :=
  [netlink_FlushRouteTable (RouteAgentInterClusterNetworkTableID K);
   netlink_FlushRouteTable (RouteAgentHostNetworkTableID K);
   ipt_ClearChain (FilterTable K) (forwardingSubmarinerFWDChain K);
   ipt_Delete (FilterTable K) (ForwardChain K) ["-j"; forwardingSubmarinerFWDChain K];
   ipt_DeleteChain (FilterTable K) (forwardingSubmarinerFWDChain K);
   ipt_ClearChain (NATTable K) (SmPostRoutingChain K);
   ipt_Delete (NATTable K) (PostRoutingChain K) ["-j"; SmPostRoutingChain K];
   ipt_DeleteChain (NATTable K) (SmPostRoutingChain K)].


Definition rule1 : Rule := {| Priority := 1; Table := 149 |}.
Definition rule2 : Rule := {| Priority := 2; Table := 150 |}.




(** C6: whatever fails, [Stop(true)] returns nil, leaves the handler alone,
    and issues, in this order: delete the bridge port, delete the bridge,
    list the rules and delete rules of the reserved tables, flush the
    inter-cluster and then the host-network route table, and the three chain
    calls for each of the two chain pairs. *)
Theorem Stop_uninstall_attempts_every_step (K : Constants) (W : World) (s : State) :
  exists attempted,
    (Stop K W true s).1 = Returns None
    /\ handler (Stop K W true s).2 = handler s
    /\ calls (events_of (Stop K W true) s) =
         [vsctl_DelInternalPort (ovnK8sSubmarinerBridge K)
                                (ovnK8sSubmarinerInterface K);
          vsctl_DelBridge (ovnK8sSubmarinerBridge K);
          netlink_RuleList (FAMILY_V4 K)]
         ++ (netlink_RuleDel <$> attempted)
         ++ flush_and_chain_calls K
    /\ Forall (fun r => reserved_table K r = true) attempted.
Proof.
  destruct (Stop_runs K W s)
    as (evs & Hrun & pre & err & attempted & post & -> & Hpre & _ & Hshape & Hpost).
  exists attempted.
  destruct (runs_result _ _ _ _ _ Hrun) as (Hres & Hh & _).
  split; [done|split; [done|split]].
  - rewrite (runs_events_of _ _ _ _ _ Hrun).
    rewrite !calls_app, Hpre, Hpost, calls_error_line. simpl.
    by rewrite calls_Invoke.
  - destruct (call_error W (trace s ++ pre) (netlink_RuleList (FAMILY_V4 K))).
    + destruct Hshape as [-> _]. constructor.
    + destruct Hshape as (skipped & Heq & _).
      assert (Hall : Forall (fun r => reserved_table K r = true)
                       (attempted ++ skipped)).
      { rewrite <- Heq. apply Forall_forall. intros r Hr.
        by apply list_elem_of_filter in Hr as [? _]. }
      by apply Forall_app in Hall as [? _].
Qed.

(** C7: [flushAndDeleteIPTableChains] issues exactly three calls, whatever
    they answer: clear the Submariner chain, delete the jump rule to it from
    the parent chain, delete the Submariner chain; and [Stop(true)] always
    ends with these three calls for the forward pair of the filter table and
    then for the post-routing pair of the NAT table. *)
Theorem chain_teardown_clear_unlink_delete (K : Constants) (W : World) :
  (forall table tableChain submarinerChain s,
     let m := flushAndDeleteIPTableChains W table tableChain submarinerChain in
     (m s).1 = Returns tt
     /\ handler (m s).2 = handler s
     /\ calls (events_of m s) =
          [ipt_ClearChain table submarinerChain;
           ipt_Delete table tableChain ["-j"; submarinerChain];
           ipt_DeleteChain table submarinerChain])
  /\ (forall s, exists before,
        calls (events_of (Stop K W true) s) =
        before
        ++ [ipt_ClearChain (FilterTable K) (forwardingSubmarinerFWDChain K);
            ipt_Delete (FilterTable K) (ForwardChain K)
                       ["-j"; forwardingSubmarinerFWDChain K];
            ipt_DeleteChain (FilterTable K) (forwardingSubmarinerFWDChain K)]
        ++ [ipt_ClearChain (NATTable K) (SmPostRoutingChain K);
            ipt_Delete (NATTable K) (PostRoutingChain K)
                       ["-j"; SmPostRoutingChain K];
            ipt_DeleteChain (NATTable K) (SmPostRoutingChain K)]).
Proof.
  split.
  - intros table tableChain submarinerChain s m.
    destruct (flushAndDeleteIPTableChains_quiet W table tableChain submarinerChain s)
      as ([] & evs & Hrun & Hcalls).
    destruct (runs_result _ _ _ _ _ Hrun) as (Hres & Hh & _).
    subst m. by rewrite (runs_events_of _ _ _ _ _ Hrun).
  - intros s.
    destruct (Stop_runs K W s)
      as (evs & Hrun & pre & err & attempted & post & -> & Hpre & _ & _ & Hpost).
    rewrite (runs_events_of _ _ _ _ _ Hrun).
    exists (calls pre ++ netlink_RuleList (FAMILY_V4 K)
              :: (netlink_RuleDel <$> attempted)
              ++ [netlink_FlushRouteTable (RouteAgentInterClusterNetworkTableID K);
                  netlink_FlushRouteTable (RouteAgentHostNetworkTableID K)]).
    rewrite !calls_app, Hpost, calls_error_line. simpl.
    rewrite calls_Invoke, <- !app_assoc. simpl. by rewrite <- !app_assoc.
Qed.

(** C9: [Stop(false)] returns nil and changes nothing: no event is appended
    to the trace and the handler is as it was. *)
Theorem Stop_without_uninstall_is_noop (K : Constants) (W : World) (s : State) :
  Stop K W false s = (Returns None, s)
  /\ events_of (Stop K W false) s = [].
Proof.
  split; [done|]. unfold events_of. simpl. apply drop_all.
Qed.

(** ** Role transitions *)




Lemma calm_range_ok rules : range_ok (calm rules).
Proof. intros h m. reflexivity. Defined.


(** C4: when the map is ranged over completely and no NAT-exemption
    operation fails, [TransitionToGateway] issues exactly one add, and
    [TransitionToNonGateway] exactly one remove, per subnet of each endpoint
    of the map: the sum of the endpoints' subnet counts, and no other
    NAT-exemption operation. *)
Theorem transition_issues_one_operation_per_subnet (W : World) (s : State) :
  range_ok W ->
  (forall h x, call_error W h (addNoMasqueradeIPTables x) = None) ->
  (forall h x, call_error W h (removeNoMasqueradeIPTables x) = None) ->
  let entries := map_to_list (remoteEndpoints (handler s)) in
  let total := sum_list ((fun kv => length (Subnets (Spec kv.2))) <$> entries) in
  let exact (m : Go (option error)) (op : string -> Call) (final : Call) : Prop :=
    exists subnets,
      calls (events_of m s) = (op <$> subnets) ++ [final]
      /\ subnets ≡ₚ all_subnets entries
      /\ length subnets = total
      /\ length (filter (fun c => is_nat_exemption c = true) (calls (events_of m s)))
         = total in
  exact (TransitionToGateway W) addNoMasqueradeIPTables updateGatewayDataplane
  /\ exact (TransitionToNonGateway W) removeNoMasqueradeIPTables
           cleanupGatewayDataplane.
Proof.
  intros Hrange Hadd Hrem entries total exact.
  assert (Hgen : forall b op format final m,
             m = transition W b op format final ->
             (forall h x, call_error W h (op x) = None) ->
             (forall x, is_nat_exemption (op x) = true) ->
             is_nat_exemption final = false ->
             exact m op final).
  { intros b op format final m -> Hok Hnat Hfinal.
    destruct (transition_runs W b op format final s)
      as (err & attempted & Hrun & Hstops).
    destruct (stops_no_failure W _ _ _ _ _ _ Hok Hstops) as [-> ->].
    exists (all_subnets (map_range W (trace s ++ [MutexLock; StoreIsGateway b])
                                   (remoteEndpoints (handler s)))).
    rewrite (runs_events_of _ _ _ _ _ Hrun). simpl.
    rewrite calls_app, calls_Invoke. simpl.
    assert (Hperm := all_subnets_Permutation _ _
                       (Hrange (trace s ++ [MutexLock; StoreIsGateway b])
                               (remoteEndpoints (handler s)))).
    split; [done|]. split; [exact Hperm|]. split.
    - rewrite Hperm. apply all_subnets_length.
    - rewrite filter_app, filter_nat_exemption_all by exact Hnat.
      rewrite filter_cons, decide_False by (rewrite Hfinal; discriminate).
      rewrite filter_nil, app_nil_r, length_fmap, Hperm.
      apply all_subnets_length. }
  split.
  - by eapply Hgen.
  - by eapply Hgen.
Qed.

Lemma transition_issues_one_operation_per_subnet_witness :
  length (filter (fun c => is_nat_exemption c = true)
            (calls (events_of (TransitionToGateway (calm []))
                              (state_of false [epA; epB]))))
  = 2%nat.
Proof.
  destruct (transition_issues_one_operation_per_subnet (calm [])
              (state_of false [epA; epB]) (calm_range_ok [])
              (fun _ _ => eq_refl) (fun _ _ => eq_refl))
    as [(subnets & _ & _ & _ & Hcount) _].
  rewrite Hcount. vm_compute. reflexivity.
Defined.

(** ** Endpoint events *)





(** C3: an endpoint whose subnets are reported as overlapping the service or
    cluster CIDRs is skipped by [RemoteEndpointCreated] and by
    [RemoteEndpointUpdated]: they return nil, leave the handler (and so the
    endpoint map) as it was, and append one error line to the log and no
    call at all. *)
Theorem overlapping_endpoint_is_skipped (W : World) (ep : Endpoint) (s : State)
    (e : error) :
  OverlappingSubnets W (ServiceCIDR (handler s)) (ClusterCIDR (handler s))
                     (Subnets (Spec ep)) = Some e ->
  let skipped (m : Go (option error)) : Prop :=
    m s = (Returns None,
           {| handler := handler s;
              trace := trace s
                       ++ [Log SevError
                             "overlappingSubnets for new remote %#v returned error"
                             [OfErr e; OfVal (FEndpoint ep)]] |})
    /\ remoteEndpoints (handler (m s).2) = remoteEndpoints (handler s)
    /\ calls (events_of m s) = [] in
  skipped (RemoteEndpointCreated W ep) /\ skipped (RemoteEndpointUpdated W ep).
Proof.
  intros Hov skipped.
  assert (Hc := overlap_runs W
    (locked (
        store_remoteEndpoint (Name ep) ep ;;;
        err <- invoke W updateHostNetworkDataplane ;;
        match err with
        | Some e => ret (Some (Wrapf e "updateHostNetworkDataplane returned error" []))
        | None =>
            h <- get_handler ;;
            if isGateway h then
              err <- range_subnets W addNoMasqueradeIPTables
                       "error adding no-masquerade rules for subnet %q"
                       (Subnets (Spec ep)) ;;
              match err with
              | Some e => ret (Some e)
              | None => invoke W updateGatewayDataplane
              end
            else ret None
        end)) ep s e Hov).
  assert (Hu := overlap_runs W
    (locked (
        store_remoteEndpoint (Name ep) ep ;;;
        err <- invoke W updateHostNetworkDataplane ;;
        match err with
        | Some e => ret (Some (Wrapf e "updateHostNetworkDataplane returned error" []))
        | None =>
            h <- get_handler ;;
            if isGateway h then invoke W updateGatewayDataplane else ret None
        end)) ep s e Hov).
  change (runs (RemoteEndpointCreated W ep) s None
            [Log SevError "overlappingSubnets for new remote %#v returned error"
                 [OfErr e; OfVal (FEndpoint ep)]] (handler s)) in Hc.
  change (runs (RemoteEndpointUpdated W ep) s None
            [Log SevError "overlappingSubnets for new remote %#v returned error"
                 [OfErr e; OfVal (FEndpoint ep)]] (handler s)) in Hu.
  split.
  - split; [exact Hc|]. rewrite (runs_events_of _ _ _ _ _ Hc).
    apply runs_result in Hc as (_ & -> & _). done.
  - split; [exact Hu|]. rewrite (runs_events_of _ _ _ _ _ Hu).
    apply runs_result in Hu as (_ & -> & _). done.
Qed.

(** The scenario of the specification: cluster CIDR 10.0.0.0/8, cluster-b
    (172.16.0.0/12) already known, cluster-c (10.1.0.0/16) overlapping. *)
Definition epClusterB : Endpoint :=
  endpoint_of "cluster-b" "libreswan" ["172.16.0.0/12"].
Definition epClusterC : Endpoint :=
  endpoint_of "cluster-c" "libreswan" ["10.1.0.0/16"].
Definition scenario : State := state_with "10.0.0.0/8" true [epClusterB].

Lemma overlapping_endpoint_is_skipped_witness :
  (RemoteEndpointCreated overlapping epClusterC scenario).1 = Returns None
  /\ remoteEndpoints (handler (RemoteEndpointCreated overlapping epClusterC
                                 scenario).2) !! "cluster-c" = None
  /\ calls (events_of (RemoteEndpointUpdated overlapping epClusterC) scenario) = [].
Proof.
  destruct (overlapping_endpoint_is_skipped overlapping epClusterC scenario
              (Errno "overlap") eq_refl) as [(Hc & Hm & _) (_ & _ & Hu)].
  split; [by rewrite Hc|]. split; [|exact Hu].
  rewrite Hm. vm_compute. reflexivity.
Defined.


Definition is_updateHostNetworkDataplane (c : Call) : bool :=
  match c with updateHostNetworkDataplane => true | _ => false end.

(** A world in which host-network reconciliation fails. *)
Definition host_fails : World := failing is_updateHostNetworkDataplane [].


(** ** The local endpoint *)

(** C8: for a local endpoint of the wireguard backend, [LocalEndpointCreated]
    looks the wireguard device up by name.  When the lookup fails it returns
    the error, wrapped, to its caller (the process does not exit), without
    taking the lock and without touching the handler; when it succeeds it
    takes the lock, stores the interface found as the cable routing
    interface, releases the lock and returns nil. *)
Theorem LocalEndpointCreated_wireguard (K : Constants) (W : World) (ep : Endpoint)
    (s : State) :
  Backend (Spec ep) = "wireguard" ->
  let c := net_InterfaceByName (DefaultDeviceName K) in
  match call_error W (trace s) c with
  | Some e =>
      LocalEndpointCreated K W ep s
      = (Returns (Some (Wrapf e "Wireguard interface %s not found on the node"
                              [FStr (DefaultDeviceName K)])),
         {| handler := handler s; trace := trace s ++ [Invoke c] |})
  | None =>
      let i := Some (interface_found W (trace s) c) in
      LocalEndpointCreated K W ep s
      = (Returns None,
         {| handler := set_cableRoutingInterface i (handler s);
            trace := trace s ++ [Invoke c; MutexLock;
                                 StoreCableRoutingInterface i; MutexUnlock] |})
  end.
Proof.
  intros Hb c. unfold LocalEndpointCreated. rewrite Hb. simpl String.eqb. cbv iota.
  subst c. unfold bind, lookup_interface.
  destruct (call_error W (trace s) (net_InterfaceByName (DefaultDeviceName K)));
    simpl.
  - reflexivity.
  - unfold locked, bind, emit, store_cableRoutingInterface, get_handler,
      put_handler, ret. simpl. by rewrite <- !app_assoc.
Qed.

(** The other branch, for contrast: with any other backend a failing lookup
    of the default gateway interface is fatal, and the process exits. *)
Lemma LocalEndpointCreated_default_route_fatal (K : Constants) (W : World)
    (ep : Endpoint) (s : State) (e : error) :
  String.eqb (Backend (Spec ep)) "wireguard" = false ->
  call_error W (trace s) netlink_GetDefaultGatewayInterface = Some e ->
  LocalEndpointCreated K W ep s
  = (Exits,
     {| handler := handler s;
        trace := trace s ++ [Invoke netlink_GetDefaultGatewayInterface;
                             Log SevFatal
                                 "Unable to find the default interface on host: %s"
                                 [OfErr e]] |}).
Proof.
  intros Hb He. unfold LocalEndpointCreated. rewrite Hb.
  unfold bind, lookup_interface. rewrite He. simpl.
  by rewrite <- app_assoc.
Qed.

Definition epW : Endpoint := endpoint_of "local" "wireguard" ["10.0.0.0/16"].

Definition is_InterfaceByName (c : Call) : bool :=
  match c with net_InterfaceByName _ => true | _ => false end.

Lemma LocalEndpointCreated_wireguard_witness :
  (LocalEndpointCreated K0 (failing is_InterfaceByName []) epW (state_of false [])).1
  = Returns (Some (Wrapf (Errno "injected")
                         "Wireguard interface %s not found on the node"
                         [FStr "submariner"]))
  /\ cableRoutingInterface
       (handler (LocalEndpointCreated K0 (calm []) epW (state_of false [])).2)
     = Some {| Index := 7; IfName := "submariner" |}.
Proof.
  split.
  - pose proof (LocalEndpointCreated_wireguard K0 (failing is_InterfaceByName [])
                  epW (state_of false []) eq_refl) as H.
    simpl in H. by rewrite H.
  - pose proof (LocalEndpointCreated_wireguard K0 (calm [])
                  epW (state_of false []) eq_refl) as H.
    simpl in H. by rewrite H.
Defined.

(** ** The endpoint events in full *)

Section EventRuns.

Variable W : World.

(** The body shared by [RemoteEndpointCreated] (once the overlap check has
    passed) and [RemoteEndpointRemoved]: a store into the map under the lock,
    host-network reconciliation, and in gateway role one NAT-exemption
    operation per subnet followed by gateway reconciliation. *)
Definition reconciling (store : Go unit) (op : string -> Call) (format : string)
    (subnets : list string) : Go (option error) :=
  locked (
    store ;;;
    err <- invoke W updateHostNetworkDataplane ;;
    match err with
    | Some e => ret (Some (Wrapf e "updateHostNetworkDataplane returned error" []))
    | None =>
        h <- get_handler ;;
        if isGateway h then
          err <- range_subnets W op format subnets ;;
          match err with
          | Some e => ret (Some e)
          | None => invoke W updateGatewayDataplane
          end
        else ret None
    end).

Lemma RemoteEndpointRemoved_reconciling ep :
  RemoteEndpointRemoved W ep
  = reconciling (delete_remoteEndpoint (Name ep)) removeNoMasqueradeIPTables
      "error removing no-masquerade rules for subnet %q" (Subnets (Spec ep)).
Proof. reflexivity. Qed.

Lemma RemoteEndpointCreated_reconciling ep s :
  OverlappingSubnets W (ServiceCIDR (handler s)) (ClusterCIDR (handler s))
                     (Subnets (Spec ep)) = None ->
  RemoteEndpointCreated W ep s
  = reconciling (store_remoteEndpoint (Name ep) ep) addNoMasqueradeIPTables
      "error adding no-masquerade rules for subnet %q" (Subnets (Spec ep)) s.
Proof.
  intros Hov. unfold RemoteEndpointCreated, bind at 1, get_handler at 1.
  by rewrite Hov.
Qed.

Definition host_error (e : error) : error :=
  Wrapf e "updateHostNetworkDataplane returned error" [].

Lemma reconciling_runs store ev h' op format subnets s :
  runs store {| handler := handler s; trace := trace s ++ [MutexLock] |} tt [ev] h' ->
  let t := trace s ++ [MutexLock; ev] in
  let m := reconciling store op format subnets in
  match call_error W t updateHostNetworkDataplane with
  | Some e =>
      runs m s (Some (host_error e))
           [MutexLock; ev; Invoke updateHostNetworkDataplane; MutexUnlock] h'
  | None =>
      if isGateway h' then
        exists err attempted,
          let t' := (t ++ [Invoke updateHostNetworkDataplane])
                    ++ (Invoke <$> (op <$> attempted)) in
          runs m s (then_reconcile W t' err updateGatewayDataplane).1
               ([MutexLock; ev; Invoke updateHostNetworkDataplane]
                ++ (Invoke <$> (op <$> attempted))
                ++ (then_reconcile W t' err updateGatewayDataplane).2
                ++ [MutexUnlock]) h'
          /\ stops_at_first_failure W op (wrap_subnet format)
               (t ++ [Invoke updateHostNetworkDataplane]) subnets attempted err
      else
        runs m s None
             [MutexLock; ev; Invoke updateHostNetworkDataplane; MutexUnlock] h'
  end.
Proof.
  intros Hstore t m. subst m. unfold reconciling.
  assert (Hpre : forall r evs,
    runs (match call_error W t updateHostNetworkDataplane with
          | Some e => ret (Some (host_error e))
          | None =>
              h <- get_handler ;;
              if isGateway h then
                err <- range_subnets W op format subnets ;;
                match err with
                | Some e => ret (Some e)
                | None => invoke W updateGatewayDataplane
                end
              else ret None
          end)
         {| handler := h'; trace := t ++ [Invoke updateHostNetworkDataplane] |}
         r evs h' ->
    runs (locked (
            store ;;;
            err <- invoke W updateHostNetworkDataplane ;;
            match err with
            | Some e => ret (Some (host_error e))
            | None =>
                h <- get_handler ;;
                if isGateway h then
                  err <- range_subnets W op format subnets ;;
                  match err with
                  | Some e => ret (Some e)
                  | None => invoke W updateGatewayDataplane
                  end
                else ret None
            end)) s r
         ([MutexLock; ev; Invoke updateHostNetworkDataplane] ++ evs
          ++ [MutexUnlock]) h').
  { intros r evs Hrest.
    change ([MutexLock; ev; Invoke updateHostNetworkDataplane] ++ evs
            ++ [MutexUnlock])
      with (MutexLock :: ([ev] ++ [Invoke updateHostNetworkDataplane] ++ evs)
                      ++ [MutexUnlock]).
    apply runs_locked.
    eapply runs_bind; [exact Hstore|].
    eapply runs_bind; [by apply runs_invoke|].
    cbn [handler trace]. subst t.
    rewrite <- !app_assoc in *. simpl in *. exact Hrest. }
  destruct (call_error W t updateHostNetworkDataplane) as [e|] eqn:Hhost.
  - apply (Hpre _ []). by apply runs_ret.
  - destruct (isGateway h') eqn:Hgw.
    + destruct (range_subnets_runs W op format subnets
                  {| handler := h'; trace := t ++ [Invoke updateHostNetworkDataplane] |})
        as (err & attempted & Hrun & Hstops).
      exists err, attempted. split; [|exact Hstops].
      cbn zeta. rewrite (app_assoc (Invoke <$> (op <$> attempted))).
      apply Hpre.
      apply runs_get_handler. cbn [handler]. rewrite Hgw.
      eapply runs_bind; [exact Hrun|]. cbn [handler trace].
      destruct err as [e|]; simpl.
      * by apply runs_ret.
      * by apply runs_invoke.
    + apply (Hpre _ []). apply runs_get_handler. cbn [handler]. rewrite Hgw.
      by apply runs_ret.
Qed.

Lemma RemoteEndpointUpdated_runs ep s :
  OverlappingSubnets W (ServiceCIDR (handler s)) (ClusterCIDR (handler s))
                     (Subnets (Spec ep)) = None ->
  let t := trace s ++ [MutexLock; StoreRemoteEndpoint (Name ep) ep] in
  let h' := set_remoteEndpoints (<[Name ep := ep]> (remoteEndpoints (handler s)))
                                (handler s) in
  match call_error W t updateHostNetworkDataplane with
  | Some e =>
      runs (RemoteEndpointUpdated W ep) s (Some (host_error e))
           [MutexLock; StoreRemoteEndpoint (Name ep) ep;
            Invoke updateHostNetworkDataplane; MutexUnlock] h'
  | None =>
      if isGateway (handler s) then
        runs (RemoteEndpointUpdated W ep) s
             (call_error W (t ++ [Invoke updateHostNetworkDataplane])
                         updateGatewayDataplane)
             [MutexLock; StoreRemoteEndpoint (Name ep) ep;
              Invoke updateHostNetworkDataplane; Invoke updateGatewayDataplane;
              MutexUnlock] h'
      else
        runs (RemoteEndpointUpdated W ep) s None
             [MutexLock; StoreRemoteEndpoint (Name ep) ep;
              Invoke updateHostNetworkDataplane; MutexUnlock] h'
  end.
Proof.
  intros Hov t h'.
  assert (Hpre : forall r evs,
    runs (match call_error W t updateHostNetworkDataplane with
          | Some e => ret (Some (host_error e))
          | None =>
              h <- get_handler ;;
              if isGateway h then invoke W updateGatewayDataplane else ret None
          end)
         {| handler := h'; trace := t ++ [Invoke updateHostNetworkDataplane] |}
         r evs h' ->
    runs (RemoteEndpointUpdated W ep) s r
         ([MutexLock; StoreRemoteEndpoint (Name ep) ep;
           Invoke updateHostNetworkDataplane] ++ evs ++ [MutexUnlock]) h').
  { intros r evs Hrest. unfold RemoteEndpointUpdated.
    apply runs_get_handler. rewrite Hov.
    change ([MutexLock; StoreRemoteEndpoint (Name ep) ep;
             Invoke updateHostNetworkDataplane] ++ evs ++ [MutexUnlock])
      with (MutexLock :: ([StoreRemoteEndpoint (Name ep) ep]
                          ++ [Invoke updateHostNetworkDataplane] ++ evs)
                      ++ [MutexUnlock]).
    apply runs_locked.
    eapply runs_bind; [reflexivity|].
    eapply runs_bind; [by apply runs_invoke|].
    cbn [handler trace]. subst t.
    rewrite <- !app_assoc in *. simpl in *. exact Hrest. }
  destruct (call_error W t updateHostNetworkDataplane) as [e|] eqn:Hhost.
  - apply (Hpre _ []). by apply runs_ret.
  - destruct (isGateway (handler s)) eqn:Hgw.
    + apply (Hpre _ [_]). apply runs_get_handler. subst h'.
      cbn [handler isGateway set_remoteEndpoints]. rewrite Hgw.
      by apply runs_invoke.
    + apply (Hpre _ []). apply runs_get_handler. subst h'.
      cbn [handler isGateway set_remoteEndpoints]. rewrite Hgw.
      by apply runs_ret.
Qed.

End EventRuns.



Definition epAB : Endpoint :=
  endpoint_of "AB" "libreswan" ["10.1.0.0/24"; "10.2.0.0/24"; "10.3.0.0/24"].




(** When host-network reconciliation fails, an endpoint event stops there, in
    either role: it returns the error wrapped as "updateHostNetworkDataplane
    returned error", with the map already changed, and issues neither a
    NAT-exemption operation nor gateway reconciliation. *)
Theorem host_reconcile_failure_stops_event (W : World) (ep : Endpoint) (s : State)
    (e : error) :
  let stored := set_remoteEndpoints (<[Name ep := ep]> (remoteEndpoints (handler s)))
                                    (handler s) in
  let deleted := set_remoteEndpoints (delete (Name ep) (remoteEndpoints (handler s)))
                                     (handler s) in
  let fails (ev : Event) :=
    call_error W (trace s ++ [MutexLock; ev]) updateHostNetworkDataplane = Some e in
  let stops (m : Go (option error)) (ev : Event) (h' : Handler) :=
    runs m s (Some (host_error e))
         [MutexLock; ev; Invoke updateHostNetworkDataplane; MutexUnlock] h' in
  (OverlappingSubnets W (ServiceCIDR (handler s)) (ClusterCIDR (handler s))
                      (Subnets (Spec ep)) = None ->
   fails (StoreRemoteEndpoint (Name ep) ep) ->
   stops (RemoteEndpointCreated W ep) (StoreRemoteEndpoint (Name ep) ep) stored
   /\ stops (RemoteEndpointUpdated W ep) (StoreRemoteEndpoint (Name ep) ep) stored)
  /\ (fails (DeleteRemoteEndpoint (Name ep)) ->
      stops (RemoteEndpointRemoved W ep) (DeleteRemoteEndpoint (Name ep)) deleted).
Proof.
  intros stored deleted fails stops. subst fails stops. cbn beta. split.
  - intros Hov Hhost. split.
    + pose proof (reconciling_runs W (store_remoteEndpoint (Name ep) ep)
                    (StoreRemoteEndpoint (Name ep) ep)
                (set_remoteEndpoints (<[Name ep := ep]> (remoteEndpoints (handler s)))
                                     (handler s))
                    addNoMasqueradeIPTables
                    "error adding no-masquerade rules for subnet %q"
                    (Subnets (Spec ep)) s eq_refl) as H.
      cbn zeta in H. rewrite Hhost in H.
      unfold runs. rewrite (RemoteEndpointCreated_reconciling W ep s Hov).
      exact H.
    + pose proof (RemoteEndpointUpdated_runs W ep s Hov) as H.
      cbn zeta in H. rewrite Hhost in H. exact H.
  - intros Hhost.
    pose proof (reconciling_runs W (delete_remoteEndpoint (Name ep))
                  (DeleteRemoteEndpoint (Name ep))
                (set_remoteEndpoints (delete (Name ep) (remoteEndpoints (handler s)))
                                     (handler s))
                  removeNoMasqueradeIPTables
                  "error removing no-masquerade rules for subnet %q"
                  (Subnets (Spec ep)) s eq_refl) as H.
    cbn zeta in H. rewrite Hhost in H. exact H.
Qed.

Lemma host_reconcile_failure_stops_event_witness :
  calls (events_of (RemoteEndpointCreated host_fails epAB) (state_of true []))
  = [updateHostNetworkDataplane]
  /\ (RemoteEndpointRemoved host_fails epAB (state_of true [epAB])).1
     = Returns (Some (host_error (Errno "injected"))).
Proof.
  destruct (host_reconcile_failure_stops_event host_fails epAB (state_of true [])
              (Errno "injected")) as [Hc _].
  destruct (Hc eq_refl eq_refl) as [Hcreated _].
  destruct (host_reconcile_failure_stops_event host_fails epAB
              (state_of true [epAB]) (Errno "injected")) as [_ Hr].
  specialize (Hr eq_refl).
  split.
  - by rewrite (runs_events_of _ _ _ _ _ Hcreated).
  - by apply runs_result in Hr as (-> & _).
Defined.

(** Off the gateway, an endpoint event changes the map and reconciles the
    host network, and that is all: it returns nil or the wrapped
    host-network error, and never issues a NAT-exemption operation or a
    gateway reconciliation. *)
Theorem non_gateway_event_only_reconciles_host (W : World) (ep : Endpoint)
    (s : State) :
  isGateway (handler s) = false ->
  let stored := set_remoteEndpoints (<[Name ep := ep]> (remoteEndpoints (handler s)))
                                    (handler s) in
  let deleted := set_remoteEndpoints (delete (Name ep) (remoteEndpoints (handler s)))
                                     (handler s) in
  let only_host (m : Go (option error)) (ev : Event) (h' : Handler) :=
    runs m s
         (host_error <$> call_error W (trace s ++ [MutexLock; ev])
                                    updateHostNetworkDataplane)
         [MutexLock; ev; Invoke updateHostNetworkDataplane; MutexUnlock] h' in
  (OverlappingSubnets W (ServiceCIDR (handler s)) (ClusterCIDR (handler s))
                      (Subnets (Spec ep)) = None ->
   only_host (RemoteEndpointCreated W ep) (StoreRemoteEndpoint (Name ep) ep) stored
   /\ only_host (RemoteEndpointUpdated W ep) (StoreRemoteEndpoint (Name ep) ep)
                stored)
  /\ only_host (RemoteEndpointRemoved W ep) (DeleteRemoteEndpoint (Name ep)) deleted.
Proof.
  intros Hgw stored deleted only_host. subst only_host. cbn beta. split.
  - intros Hov. split.
    + pose proof (reconciling_runs W (store_remoteEndpoint (Name ep) ep)
                    (StoreRemoteEndpoint (Name ep) ep)
                (set_remoteEndpoints (<[Name ep := ep]> (remoteEndpoints (handler s)))
                                     (handler s))
                    addNoMasqueradeIPTables
                    "error adding no-masquerade rules for subnet %q"
                    (Subnets (Spec ep)) s eq_refl) as H.
      cbn zeta in H. cbn [isGateway set_remoteEndpoints] in H. rewrite Hgw in H.
      unfold runs. rewrite (RemoteEndpointCreated_reconciling W ep s Hov).
      by destruct (call_error W _ updateHostNetworkDataplane).
    + pose proof (RemoteEndpointUpdated_runs W ep s Hov) as H.
      cbn zeta in H. rewrite Hgw in H.
      by destruct (call_error W _ updateHostNetworkDataplane).
  - pose proof (reconciling_runs W (delete_remoteEndpoint (Name ep))
                  (DeleteRemoteEndpoint (Name ep))
                (set_remoteEndpoints (delete (Name ep) (remoteEndpoints (handler s)))
                                     (handler s))
                  removeNoMasqueradeIPTables
                  "error removing no-masquerade rules for subnet %q"
                  (Subnets (Spec ep)) s eq_refl) as H.
    cbn zeta in H. cbn [isGateway set_remoteEndpoints] in H. rewrite Hgw in H.
    by destruct (call_error W _ updateHostNetworkDataplane).
Qed.

Lemma non_gateway_event_only_reconciles_host_witness :
  calls (events_of (RemoteEndpointCreated (calm []) epAB) (state_of false []))
  = [updateHostNetworkDataplane]
  /\ calls (events_of (RemoteEndpointRemoved (calm []) epAB) (state_of false [epAB]))
     = [updateHostNetworkDataplane].
Proof.
  destruct (non_gateway_event_only_reconciles_host (calm []) epAB
              (state_of false []) eq_refl) as [Hc _].
  destruct (Hc eq_refl) as [Hcreated _].
  destruct (non_gateway_event_only_reconciles_host (calm []) epAB
              (state_of false [epAB]) eq_refl) as [_ Hr].
  split.
  - by rewrite (runs_events_of _ _ _ _ _ Hcreated).
  - by rewrite (runs_events_of _ _ _ _ _ Hr).
Defined.

(** ** Sequences of events *)

(** What the event framework can ask of the handler once it runs. *)
Inductive Request :=
| EndpointCreated (ep : Endpoint)
| EndpointUpdated (ep : Endpoint)
| EndpointRemoved (ep : Endpoint)
| BecomeGateway
| BecomeNonGateway.

Definition serve (W : World) (r : Request) : Go (option error) :=
  match r with
  | EndpointCreated ep => RemoteEndpointCreated W ep
  | EndpointUpdated ep => RemoteEndpointUpdated W ep
  | EndpointRemoved ep => RemoteEndpointRemoved W ep
  | BecomeGateway => TransitionToGateway W
  | BecomeNonGateway => TransitionToNonGateway W
  end.

(** The requests of a list, one after the other, whatever each returns. *)
Fixpoint serve_all (W : World) (rs : list Request) : Go (list (option error)) :=
  match rs with
  | [] => ret []
  | r :: rest =>
      res <- serve W r ;;
      more <- serve_all W rest ;;
      ret (res :: more)
  end.

(** The handler a request leaves behind, read as a function of the handler
    alone. *)
Definition upsert (W : World) (ep : Endpoint) (h : Handler) : Handler :=
  match OverlappingSubnets W (ServiceCIDR h) (ClusterCIDR h) (Subnets (Spec ep)) with
  | Some _ => h
  | None => set_remoteEndpoints (<[Name ep := ep]> (remoteEndpoints h)) h
  end.

Definition net_effect (W : World) (h : Handler) (r : Request) : Handler :=
  match r with
  | EndpointCreated ep | EndpointUpdated ep => upsert W ep h
  | EndpointRemoved ep => set_remoteEndpoints (delete (Name ep) (remoteEndpoints h)) h
  | BecomeGateway => set_isGateway true h
  | BecomeNonGateway => set_isGateway false h
  end.

Definition names (r : Request) : option string :=
  match r with
  | EndpointCreated ep | EndpointUpdated ep | EndpointRemoved ep => Some (Name ep)
  | BecomeGateway | BecomeNonGateway => None
  end.

Definition is_transition (r : Request) : bool :=
  match r with
  | BecomeGateway | BecomeNonGateway => true
  | _ => false
  end.

Section Sequences.

Variable W : World.

Lemma overlap_states ep s e :
  OverlappingSubnets W (ServiceCIDR (handler s)) (ClusterCIDR (handler s))
                     (Subnets (Spec ep)) = Some e ->
  let line := Log SevError "overlappingSubnets for new remote %#v returned error"
                  [OfErr e; OfVal (FEndpoint ep)] in
  runs (RemoteEndpointCreated W ep) s None [line] (handler s)
  /\ runs (RemoteEndpointUpdated W ep) s None [line] (handler s).
Proof.
  intros Hov line.
  unfold runs, RemoteEndpointCreated, RemoteEndpointUpdated, bind, get_handler.
  by rewrite Hov.
Qed.

Lemma serve_effect r s :
  exists res evs, runs (serve W r) s res evs (net_effect W (handler s) r).
Proof.
  destruct r as [ep|ep|ep| |]; simpl; unfold upsert.
  - destruct (OverlappingSubnets W _ _ _) as [e|] eqn:Hov.
    + eexists _, _. apply (overlap_states ep s e Hov).
    + by apply RemoteEndpointCreated_stores.
  - destruct (OverlappingSubnets W _ _ _) as [e|] eqn:Hov.
    + eexists _, _. apply (overlap_states ep s e Hov).
    + by apply RemoteEndpointUpdated_stores.
  - apply RemoteEndpointRemoved_deletes.
  - destruct (transition_runs W true addNoMasqueradeIPTables
                "error adding no-masquerade rules for subnet %q"
                updateGatewayDataplane s) as (err & att & Hrun & _).
    eexists _, _. exact Hrun.
  - destruct (transition_runs W false removeNoMasqueradeIPTables
                "error removing no-masquerade rules for subnet %q"
                cleanupGatewayDataplane s) as (err & att & Hrun & _).
    eexists _, _. exact Hrun.
Qed.

Lemma serve_all_effect rs s :
  exists results evs,
    runs (serve_all W rs) s results evs (foldl (net_effect W) (handler s) rs)
    /\ length results = length rs.
Proof.
  revert s. induction rs as [|r rs IH]; intros s.
  - exists [], []. split; [by apply runs_ret|done].
  - destruct (serve_effect r s) as (res & e1 & H1).
    destruct (IH {| handler := net_effect W (handler s) r; trace := trace s ++ e1 |})
      as (more & e2 & H2 & Hlen).
    exists (res :: more), (e1 ++ e2 ++ []). split; [|by simpl; rewrite Hlen].
    simpl. eapply runs_bind; [exact H1|].
    eapply runs_bind; [exact H2|]. by apply runs_ret.
Qed.

Lemma net_effect_config h r :
  ServiceCIDR (net_effect W h r) = ServiceCIDR h
  /\ ClusterCIDR (net_effect W h r) = ClusterCIDR h
  /\ cableRoutingInterface (net_effect W h r) = cableRoutingInterface h.
Proof.
  destruct r; simpl; unfold upsert; try done;
    by destruct (OverlappingSubnets W _ _ _).
Qed.

Lemma net_effect_role h r :
  is_transition r = false -> isGateway (net_effect W h r) = isGateway h.
Proof.
  destruct r; simpl; unfold upsert; try done;
    by destruct (OverlappingSubnets W _ _ _).
Qed.

Lemma net_effect_other h r k :
  names r <> Some k ->
  remoteEndpoints (net_effect W h r) !! k = remoteEndpoints h !! k.
Proof.
  destruct r as [ep|ep|ep| |]; simpl; unfold upsert; intros Hk; try done.
  - destruct (OverlappingSubnets W _ _ _); [done|]. simpl.
    apply lookup_insert_ne. congruence.
  - destruct (OverlappingSubnets W _ _ _); [done|]. simpl.
    apply lookup_insert_ne. congruence.
  - simpl. apply lookup_delete_ne. congruence.
Qed.

Lemma net_effect_twice h r : net_effect W (net_effect W h r) r = net_effect W h r.
Proof.
  destruct r as [ep|ep|ep| |]; simpl; unfold upsert; try done.
  - destruct (OverlappingSubnets W (ServiceCIDR h) _ _) eqn:Hov; simpl;
      rewrite Hov; [done|].
    unfold set_remoteEndpoints. simpl. by rewrite insert_insert_eq.
  - destruct (OverlappingSubnets W (ServiceCIDR h) _ _) eqn:Hov; simpl;
      rewrite Hov; [done|].
    unfold set_remoteEndpoints. simpl. by rewrite insert_insert_eq.
  - unfold set_remoteEndpoints. simpl. by rewrite delete_delete_eq.
Qed.

End Sequences.

(** Any sequence of endpoint events and role transitions, whatever each of
    them returns, leaves the handler with the net effect of the sequence: an
    accepted create or update stores the endpoint under its name, a rejected
    (overlapping) one changes nothing, a remove deletes the name, and a
    transition sets the role flag.  A reconciliation or NAT-exemption error
    never undoes or skips the change. *)
Theorem handler_follows_requests (W : World) (rs : list Request) (s : State) :
  exists results evs,
    serve_all W rs s
    = (Returns results,
       {| handler := foldl (net_effect W) (handler s) rs;
          trace := trace s ++ evs |})
    /\ length results = length rs.
Proof. apply serve_all_effect. Qed.

(** Over any sequence of endpoint events and role transitions the configured
    CIDRs and the cached cable routing interface stay as they were; the role
    flag only changes if the sequence has a transition, and the entry of a
    name only if the sequence has an event for that name. *)
Theorem requests_touch_only_their_fields (W : World) (rs : list Request)
    (s : State) :
  let h' := handler (serve_all W rs s).2 in
  ServiceCIDR h' = ServiceCIDR (handler s)
  /\ ClusterCIDR h' = ClusterCIDR (handler s)
  /\ cableRoutingInterface h' = cableRoutingInterface (handler s)
  /\ (forallb (fun r => negb (is_transition r)) rs = true ->
      isGateway h' = isGateway (handler s))
  /\ (forall k, Forall (fun r => names r <> Some k) rs ->
      remoteEndpoints h' !! k = remoteEndpoints (handler s) !! k).
Proof.
  destruct (serve_all_effect W rs s) as (results & evs & Hrun & _).
  apply runs_result in Hrun as (_ & Hh & _). cbn zeta. rewrite Hh. clear Hh.
  generalize (handler s) as h. induction rs as [|r rs IH]; intros h.
  - simpl. repeat split; done.
  - simpl. destruct (IH (net_effect W h r)) as (H1 & H2 & H3 & H4 & H5).
    destruct (net_effect_config W h r) as (C1 & C2 & C3).
    split; [congruence|]. split; [congruence|]. split; [congruence|]. split.
    + intros [Hr Hrs]%andb_true_iff. rewrite H4 by exact Hrs.
      apply net_effect_role. by destruct (is_transition r).
    + intros k Hk. apply Forall_cons in Hk as [Hr Hrs].
      rewrite H5 by exact Hrs. by apply net_effect_other.
Qed.

Lemma requests_touch_only_their_fields_witness :
  isGateway (handler (serve_all (calm []) [EndpointCreated epA; EndpointRemoved epB]
                                (state_of true [epB])).2) = true
  /\ remoteEndpoints
       (handler (serve_all host_fails [EndpointUpdated epA; BecomeNonGateway]
                           (state_of true [epB])).2) !! "B" = Some epB.
Proof.
  split.
  - pose proof (requests_touch_only_their_fields (calm [])
                  [EndpointCreated epA; EndpointRemoved epB] (state_of true [epB]))
      as (_ & _ & _ & H & _).
    apply H. reflexivity.
  - pose proof (requests_touch_only_their_fields host_fails
                  [EndpointUpdated epA; BecomeNonGateway] (state_of true [epB]))
      as (_ & _ & _ & _ & H).
    rewrite H; [by vm_compute|].
    repeat constructor; simpl; congruence.
Defined.

(** Redelivery: serving the same request a second time leaves the handler
    as the first delivery left it. *)
Theorem redelivery_leaves_handler_unchanged (W : World) (r : Request) (s : State) :
  handler ((serve W r ;;; serve W r) s).2 = handler (serve W r s).2.
Proof.
  destruct (serve_effect W r s) as (res1 & e1 & H1).
  destruct (serve_effect W r {| handler := net_effect W (handler s) r;
                                trace := trace s ++ e1 |})
    as (res2 & e2 & H2).
  assert (H12 : runs (serve W r ;;; serve W r) s res2 (e1 ++ e2)
                     (net_effect W (net_effect W (handler s) r) r))
    by (eapply runs_bind; [exact H1|exact H2]).
  apply runs_result in H12 as (_ & -> & _).
  apply runs_result in H1 as (_ & -> & _).
  apply net_effect_twice.
Qed.

(** ** Operations that undo each other *)

Section Undo.

Variable W : World.

(** The body of a create or remove when nothing it needs fails. *)
Lemma reconciling_all_ok store ev h' op format subnets s :
  runs store {| handler := handler s; trace := trace s ++ [MutexLock] |} tt [ev] h' ->
  isGateway h' = true ->
  (forall t, call_error W t updateHostNetworkDataplane = None) ->
  (forall t x, call_error W t (op x) = None) ->
  exists res,
    runs (reconciling W store op format subnets) s res
         ([MutexLock; ev; Invoke updateHostNetworkDataplane]
          ++ (Invoke <$> (op <$> subnets))
          ++ [Invoke updateGatewayDataplane; MutexUnlock]) h'.
Proof.
  intros Hstore Hgw Hhost Hop.
  pose proof (reconciling_runs W store ev h' op format subnets s Hstore) as H.
  cbn zeta in H. rewrite Hhost, Hgw in H.
  destruct H as (err & attempted & Hrun & Hstops).
  destruct (stops_no_failure W _ _ _ _ _ _ Hop Hstops) as [-> ->].
  eexists. exact Hrun.
Qed.

Lemma created_then_removed ep s :
  OverlappingSubnets W (ServiceCIDR (handler s)) (ClusterCIDR (handler s))
                     (Subnets (Spec ep)) = None ->
  isGateway (handler s) = true ->
  (forall t, call_error W t updateHostNetworkDataplane = None) ->
  (forall t x, call_error W t (addNoMasqueradeIPTables x) = None) ->
  (forall t x, call_error W t (removeNoMasqueradeIPTables x) = None) ->
  exists res,
    runs (RemoteEndpointCreated W ep ;;; RemoteEndpointRemoved W ep) s res
         (([MutexLock; StoreRemoteEndpoint (Name ep) ep;
            Invoke updateHostNetworkDataplane]
           ++ (Invoke <$> (addNoMasqueradeIPTables <$> Subnets (Spec ep)))
           ++ [Invoke updateGatewayDataplane; MutexUnlock])
          ++ ([MutexLock; DeleteRemoteEndpoint (Name ep);
               Invoke updateHostNetworkDataplane]
              ++ (Invoke <$> (removeNoMasqueradeIPTables <$> Subnets (Spec ep)))
              ++ [Invoke updateGatewayDataplane; MutexUnlock]))
         (set_remoteEndpoints (delete (Name ep) (remoteEndpoints (handler s)))
                              (handler s)).
Proof.
  intros Hov Hgw Hhost Hadd Hrem.
  destruct (reconciling_all_ok (store_remoteEndpoint (Name ep) ep)
              (StoreRemoteEndpoint (Name ep) ep)
              (set_remoteEndpoints (<[Name ep := ep]> (remoteEndpoints (handler s)))
                                   (handler s))
              addNoMasqueradeIPTables
              "error adding no-masquerade rules for subnet %q"
              (Subnets (Spec ep)) s eq_refl Hgw Hhost Hadd) as (res1 & H1).
  match type of H1 with
  | runs _ _ _ ?evs ?h =>
      destruct (reconciling_all_ok (delete_remoteEndpoint (Name ep))
                  (DeleteRemoteEndpoint (Name ep))
                  (set_remoteEndpoints
                     (delete (Name ep) (remoteEndpoints (handler s))) (handler s))
                  removeNoMasqueradeIPTables
                  "error removing no-masquerade rules for subnet %q"
                  (Subnets (Spec ep))
                  {| handler := h; trace := trace s ++ evs |}) as (res2 & H2);
        [|exact Hgw|exact Hhost|exact Hrem|]
  end.
  { unfold runs, delete_remoteEndpoint, bind, get_handler, put_handler, emit.
    simpl. unfold set_remoteEndpoints. simpl. by rewrite delete_insert_eq. }
  exists res2. eapply runs_bind.
  - unfold runs. rewrite (RemoteEndpointCreated_reconciling W ep s Hov). exact H1.
  - exact H2.
Qed.

Lemma rejected_then_removed ep s e :
  OverlappingSubnets W (ServiceCIDR (handler s)) (ClusterCIDR (handler s))
                     (Subnets (Spec ep)) = Some e ->
  isGateway (handler s) = true ->
  (forall t, call_error W t updateHostNetworkDataplane = None) ->
  (forall t x, call_error W t (removeNoMasqueradeIPTables x) = None) ->
  exists res,
    runs (RemoteEndpointCreated W ep ;;; RemoteEndpointRemoved W ep) s res
         ([Log SevError "overlappingSubnets for new remote %#v returned error"
               [OfErr e; OfVal (FEndpoint ep)]]
          ++ ([MutexLock; DeleteRemoteEndpoint (Name ep);
               Invoke updateHostNetworkDataplane]
              ++ (Invoke <$> (removeNoMasqueradeIPTables <$> Subnets (Spec ep)))
              ++ [Invoke updateGatewayDataplane; MutexUnlock]))
         (set_remoteEndpoints (delete (Name ep) (remoteEndpoints (handler s)))
                              (handler s)).
Proof.
  intros Hov Hgw Hhost Hrem.
  destruct (overlap_states W ep s e Hov) as [H1 _].
  match type of H1 with
  | runs _ _ _ ?evs ?h =>
      destruct (reconciling_all_ok (delete_remoteEndpoint (Name ep))
                  (DeleteRemoteEndpoint (Name ep))
                  (set_remoteEndpoints
                     (delete (Name ep) (remoteEndpoints (handler s))) (handler s))
                  removeNoMasqueradeIPTables
                  "error removing no-masquerade rules for subnet %q"
                  (Subnets (Spec ep))
                  {| handler := h; trace := trace s ++ evs |}
                  eq_refl Hgw Hhost Hrem) as (res2 & H2)
  end.
  exists res2. eapply runs_bind; [exact H1|exact H2].
Qed.

Lemma transition_all_ok b op format final s :
  range_ok W ->
  (forall t x, call_error W t (op x) = None) ->
  exists res subnets,
    runs (transition W b op format final) s res
         ([MutexLock; StoreIsGateway b]
          ++ (Invoke <$> (op <$> subnets))
          ++ [Invoke final; MutexUnlock])
         (set_isGateway b (handler s))
    /\ subnets ≡ₚ all_subnets (map_to_list (remoteEndpoints (handler s))).
Proof.
  intros Hrange Hop.
  destruct (transition_runs W b op format final s)
    as (err & attempted & Hrun & Hstops).
  destruct (stops_no_failure W _ _ _ _ _ _ Hop Hstops) as [-> ->].
  eexists _, _. split; [exact Hrun|].
  apply all_subnets_Permutation, Hrange.
Qed.

Lemma two_transitions b1 op1 format1 final1 b2 op2 format2 final2 s :
  range_ok W ->
  (forall t x, call_error W t (op1 x) = None) ->
  (forall t x, call_error W t (op2 x) = None) ->
  exists res first second,
    runs (transition W b1 op1 format1 final1 ;;; transition W b2 op2 format2 final2)
         s res
         (([MutexLock; StoreIsGateway b1]
           ++ (Invoke <$> (op1 <$> first)) ++ [Invoke final1; MutexUnlock])
          ++ ([MutexLock; StoreIsGateway b2]
              ++ (Invoke <$> (op2 <$> second)) ++ [Invoke final2; MutexUnlock]))
         (set_isGateway b2 (handler s))
    /\ first ≡ₚ all_subnets (map_to_list (remoteEndpoints (handler s)))
    /\ second ≡ₚ first.
Proof.
  intros Hrange Hop1 Hop2.
  destruct (transition_all_ok b1 op1 format1 final1 s Hrange Hop1)
    as (res1 & first & H1 & Hp1).
  match type of H1 with
  | runs _ _ _ ?evs ?h =>
      destruct (transition_all_ok b2 op2 format2 final2
                  {| handler := h; trace := trace s ++ evs |} Hrange Hop2)
        as (res2 & second & H2 & Hp2)
  end.
  exists res2, first, second. split; [|split; [exact Hp1|]].
  - eapply runs_bind; [exact H1|exact H2].
  - simpl in Hp2. etransitivity; [exact Hp2|]. symmetry. exact Hp1.
Qed.

Lemma calls_of_transition b (op : string -> Call) (l : list string) final :
  calls ([MutexLock; StoreIsGateway b] ++ (Invoke <$> (op <$> l))
         ++ [Invoke final; MutexUnlock])
  = (op <$> l) ++ [final].
Proof. simpl. by rewrite calls_app, calls_Invoke. Qed.

Lemma calls_of_event ev (op : string -> Call) (l : list string) :
  calls ([MutexLock; ev; Invoke updateHostNetworkDataplane]
         ++ (Invoke <$> (op <$> l))
         ++ [Invoke updateGatewayDataplane; MutexUnlock])
  = calls [ev] ++ [updateHostNetworkDataplane] ++ (op <$> l) ++ [updateGatewayDataplane].
Proof.
  change ([MutexLock; ev; Invoke updateHostNetworkDataplane] ++ ?x)
    with ([MutexLock] ++ [ev] ++ [Invoke updateHostNetworkDataplane] ++ x).
  rewrite !calls_app, calls_Invoke. done.
Qed.

End Undo.

(** On a gateway where host reconciliation and the NAT-exemption operations
    succeed, creating an endpoint and then removing it issues one add per
    subnet and then one remove for each of the same subnets, in the same
    order, and leaves the map without the endpoint's name: as it was, if the
    name was not in it before. *)
Theorem create_then_remove_undoes (W : World) (ep : Endpoint) (s : State) :
  OverlappingSubnets W (ServiceCIDR (handler s)) (ClusterCIDR (handler s))
                     (Subnets (Spec ep)) = None ->
  isGateway (handler s) = true ->
  (forall t, call_error W t updateHostNetworkDataplane = None) ->
  (forall t x, call_error W t (addNoMasqueradeIPTables x) = None) ->
  (forall t x, call_error W t (removeNoMasqueradeIPTables x) = None) ->
  let m := RemoteEndpointCreated W ep ;;; RemoteEndpointRemoved W ep in
  calls (events_of m s)
  = [updateHostNetworkDataplane]
    ++ (addNoMasqueradeIPTables <$> Subnets (Spec ep))
    ++ [updateGatewayDataplane; updateHostNetworkDataplane]
    ++ (removeNoMasqueradeIPTables <$> Subnets (Spec ep))
    ++ [updateGatewayDataplane]
  /\ remoteEndpoints (handler (m s).2)
     = delete (Name ep) (remoteEndpoints (handler s))
  /\ (remoteEndpoints (handler s) !! Name ep = None ->
      remoteEndpoints (handler (m s).2) = remoteEndpoints (handler s)).
Proof.
  intros Hov Hgw Hhost Hadd Hrem m.
  destruct (created_then_removed W ep s Hov Hgw Hhost Hadd Hrem) as (res & Hrun).
  subst m. rewrite (runs_events_of _ _ _ _ _ Hrun).
  apply runs_result in Hrun as (_ & Hh & _). rewrite Hh.
  split; [|split; [done|]].
  - rewrite calls_app, !calls_of_event. simpl. by rewrite <- !app_assoc.
  - intros Hnone. simpl. by apply delete_id.
Qed.

Lemma create_then_remove_undoes_witness :
  remoteEndpoints
    (handler ((RemoteEndpointCreated (calm []) epAB
               ;;; RemoteEndpointRemoved (calm []) epAB) (state_of true [epA])).2)
  = remoteEndpoints (handler (state_of true [epA])).
Proof.
  apply (create_then_remove_undoes (calm []) epAB (state_of true [epA]) eq_refl
           eq_refl (fun _ => eq_refl) (fun _ _ => eq_refl) (fun _ _ => eq_refl)).
  vm_compute. reflexivity.
Defined.

(** An endpoint rejected at creation for overlapping the local CIDRs is
    still processed at removal: on a gateway, the create issues no call, and
    the remove that follows issues a NAT-exemption remove for each of its
    subnets although no add was ever issued for them. *)
Theorem rejected_create_then_remove_still_removes (W : World) (ep : Endpoint)
    (s : State) (e : error) :
  OverlappingSubnets W (ServiceCIDR (handler s)) (ClusterCIDR (handler s))
                     (Subnets (Spec ep)) = Some e ->
  isGateway (handler s) = true ->
  (forall t, call_error W t updateHostNetworkDataplane = None) ->
  (forall t x, call_error W t (removeNoMasqueradeIPTables x) = None) ->
  calls (events_of (RemoteEndpointCreated W ep ;;; RemoteEndpointRemoved W ep) s)
  = [updateHostNetworkDataplane]
    ++ (removeNoMasqueradeIPTables <$> Subnets (Spec ep))
    ++ [updateGatewayDataplane].
Proof.
  intros Hov Hgw Hhost Hrem.
  destruct (rejected_then_removed W ep s e Hov Hgw Hhost Hrem) as (res & Hrun).
  rewrite (runs_events_of _ _ _ _ _ Hrun).
  rewrite calls_app, calls_of_event. done.
Qed.

Lemma rejected_create_then_remove_still_removes_witness :
  calls (events_of (RemoteEndpointCreated overlapping epClusterC
                    ;;; RemoteEndpointRemoved overlapping epClusterC) scenario)
  = [updateHostNetworkDataplane;
     removeNoMasqueradeIPTables "10.1.0.0/16";
     updateGatewayDataplane].
Proof.
  apply (rejected_create_then_remove_still_removes overlapping epClusterC scenario
           (Errno "overlap") eq_refl eq_refl (fun _ => eq_refl)
           (fun _ _ => eq_refl)).
Defined.

(** A transition to gateway followed by a transition to non-gateway, with no
    endpoint event in between and no failing NAT-exemption operation, removes
    exactly what it added: the removes are for the same subnets as the adds,
    as many times each, and the role flag is back to non-gateway. *)
Theorem gateway_round_trip_removes_what_it_added (W : World) (s : State) :
  range_ok W ->
  (forall t x, call_error W t (addNoMasqueradeIPTables x) = None) ->
  (forall t x, call_error W t (removeNoMasqueradeIPTables x) = None) ->
  let m := TransitionToGateway W ;;; TransitionToNonGateway W in
  exists added removed,
    calls (events_of m s)
    = (addNoMasqueradeIPTables <$> added) ++ [updateGatewayDataplane]
      ++ (removeNoMasqueradeIPTables <$> removed) ++ [cleanupGatewayDataplane]
    /\ removed ≡ₚ added
    /\ added ≡ₚ all_subnets (map_to_list (remoteEndpoints (handler s)))
    /\ handler (m s).2 = set_isGateway false (handler s).
Proof.
  intros Hrange Hadd Hrem m.
  destruct (two_transitions W true addNoMasqueradeIPTables
              "error adding no-masquerade rules for subnet %q" updateGatewayDataplane
              false removeNoMasqueradeIPTables
              "error removing no-masquerade rules for subnet %q"
              cleanupGatewayDataplane s Hrange Hadd Hrem)
    as (res & added & removed & Hrun & Hp1 & Hp2).
  exists added, removed.
  change (runs m s res
            (([MutexLock; StoreIsGateway true]
              ++ (Invoke <$> (addNoMasqueradeIPTables <$> added))
              ++ [Invoke updateGatewayDataplane; MutexUnlock])
             ++ ([MutexLock; StoreIsGateway false]
                 ++ (Invoke <$> (removeNoMasqueradeIPTables <$> removed))
                 ++ [Invoke cleanupGatewayDataplane; MutexUnlock]))
            (set_isGateway false (handler s))) in Hrun.
  rewrite (runs_events_of _ _ _ _ _ Hrun).
  apply runs_result in Hrun as (_ & Hh & _).
  split; [|done].
  rewrite calls_app, !calls_of_transition. by rewrite <- !app_assoc.
Qed.

Lemma gateway_round_trip_removes_what_it_added_witness :
  isGateway (handler ((TransitionToGateway (calm [])
                       ;;; TransitionToNonGateway (calm []))
                        (state_of false [epA; epB])).2) = false.
Proof.
  destruct (gateway_round_trip_removes_what_it_added (calm [])
              (state_of false [epA; epB]) (calm_range_ok [])
              (fun _ _ => eq_refl) (fun _ _ => eq_refl))
    as (added & removed & _ & _ & _ & Hh).
  by rewrite Hh.
Defined.

(** A transition does not look at the current role: on a node that is
    already a gateway, a second [TransitionToGateway] issues an add for every
    subnet of every endpoint all over again (when no add fails). *)
Theorem repeated_TransitionToGateway_adds_again (W : World) (s : State) :
  range_ok W ->
  (forall t x, call_error W t (addNoMasqueradeIPTables x) = None) ->
  exists first second,
    calls (events_of (TransitionToGateway W ;;; TransitionToGateway W) s)
    = (addNoMasqueradeIPTables <$> first) ++ [updateGatewayDataplane]
      ++ (addNoMasqueradeIPTables <$> second) ++ [updateGatewayDataplane]
    /\ first ≡ₚ all_subnets (map_to_list (remoteEndpoints (handler s)))
    /\ second ≡ₚ first.
Proof.
  intros Hrange Hadd.
  destruct (two_transitions W true addNoMasqueradeIPTables
              "error adding no-masquerade rules for subnet %q" updateGatewayDataplane
              true addNoMasqueradeIPTables
              "error adding no-masquerade rules for subnet %q"
              updateGatewayDataplane s Hrange Hadd Hadd)
    as (res & first & second & Hrun & Hp1 & Hp2).
  exists first, second.
  change (runs (TransitionToGateway W ;;; TransitionToGateway W) s res
            (([MutexLock; StoreIsGateway true]
              ++ (Invoke <$> (addNoMasqueradeIPTables <$> first))
              ++ [Invoke updateGatewayDataplane; MutexUnlock])
             ++ ([MutexLock; StoreIsGateway true]
                 ++ (Invoke <$> (addNoMasqueradeIPTables <$> second))
                 ++ [Invoke updateGatewayDataplane; MutexUnlock]))
            (set_isGateway true (handler s))) in Hrun.
  rewrite (runs_events_of _ _ _ _ _ Hrun).
  split; [|done].
  rewrite calls_app, !calls_of_transition. by rewrite <- !app_assoc.
Qed.

Lemma repeated_TransitionToGateway_adds_again_witness :
  length (calls (events_of (TransitionToGateway (calm [])
                            ;;; TransitionToGateway (calm []))
                           (state_of true [epA; epB]))) = 6%nat.
Proof.
  destruct (repeated_TransitionToGateway_adds_again (calm [])
              (state_of true [epA; epB]) (calm_range_ok []) (fun _ _ => eq_refl))
    as (first & second & Hcalls & _ & _).
  vm_compute. reflexivity.
Defined.

(** ** What the log and the lock see *)

Definition is_error_line (e : Event) : bool :=
  match e with
  | Log SevError _ _ => true
  | _ => false
  end.

(** A call or a log line: neither a mutex operation nor a store. *)
Definition is_plain (e : Event) : bool :=
  match e with
  | Invoke _ | Log _ _ _ => true
  | _ => false
  end.

(** The mutex discipline over a stretch of trace, given whether the lock is
    held where it starts: the lock is never taken while held nor released
    while free, a field of the handler is only stored while it is held, and
    it is free at the end. *)
Fixpoint lock_ok (held : bool) (evs : list Event) : bool :=
  match evs with
  | [] => negb held
  | MutexLock :: rest => negb held && lock_ok true rest
  | MutexUnlock :: rest => held && lock_ok false rest
  | Invoke _ :: rest | Log _ _ _ :: rest => lock_ok held rest
  | StoreCableRoutingInterface _ :: rest
  | StoreRemoteEndpoint _ _ :: rest
  | DeleteRemoteEndpoint _ :: rest
  | StoreIsGateway _ :: rest => held && lock_ok held rest
  end.


Lemma lock_ok_plain evs :
  Forall (fun e => is_plain e = true) evs -> lock_ok false evs = true.
Proof.
  induction 1 as [|e evs He _ IH]; [done|].
  destruct e; try discriminate He; exact IH.
Qed.

Lemma events_of_trace {A} (m : Go A) s evs :
  trace (m s).2 = trace s ++ evs -> events_of m s = evs.
Proof. unfold events_of. intros ->. by rewrite drop_app_length. Qed.

Section Yields.

Variable K : Constants.
Variable W : World.

(** [yields P Q m]: from every state [m] returns a result satisfying [Q],
    leaves the handler alone and appends only events satisfying [P]. *)
Definition yields {A} (P : Event -> Prop) (Q : A -> Prop) (m : Go A) : Prop :=
  forall s, exists a evs, runs m s a evs (handler s) /\ Forall P evs /\ Q a.

(** [P] admits calls and info lines, and error lines too unless no call can
    fail. *)
Definition tolerant (P : Event -> Prop) : Prop :=
  (forall c, P (Invoke c))
  /\ (forall format args, P (Log SevInfo format args))
  /\ ((forall format args, P (Log SevError format args))
      \/ (forall t c, call_error W t c = None)).

(** An error that [P] can see logged. *)
Definition excused (P : Event -> Prop) (err : option error) : Prop :=
  err = None \/ forall format args, P (Log SevError format args).

Lemma yields_ret {A} P (Q : A -> Prop) a : Q a -> yields P Q (ret a).
Proof. intros HQ s. exists a, []. split; [by apply runs_ret|]. by split. Qed.

Lemma yields_bind {A B} P (Q : A -> Prop) (R : B -> Prop) (m : Go A) (k : A -> Go B) :
  yields P Q m -> (forall a, Q a -> yields P R (k a)) -> yields P R (bind m k).
Proof.
  intros Hm Hk s. destruct (Hm s) as (a & e1 & H1 & HP1 & HQ).
  destruct (Hk a HQ {| handler := handler s; trace := trace s ++ e1 |})
    as (b & e2 & H2 & HP2 & HR).
  exists b, (e1 ++ e2). split; [by eapply runs_bind|].
  split; [by apply Forall_app|done].
Qed.

Lemma yields_Infof P format args :
  tolerant P -> yields P (fun _ => True) (Infof format args).
Proof.
  intros (_ & Hinfo & _) s. exists tt, [Log SevInfo format args].
  split; [by apply runs_emit|]. split; [|done]. by constructor.
Qed.

Lemma yields_invoke P c : tolerant P -> yields P (excused P) (invoke W c).
Proof.
  intros (Hcall & _ & Herr) s. eexists _, _.
  split; [by apply runs_invoke|]. split; [by constructor|].
  destruct Herr as [Herr|Hok]; [by right|left; apply Hok].
Qed.

Lemma yields_log_error P (err : option error) format args :
  excused P err ->
  yields P (fun _ => True)
         (match err with
          | Some e => Errorf format (args e)
          | None => ret tt
          end).
Proof.
  intros Hex. destruct err as [e|]; [|by apply yields_ret].
  destruct Hex as [|Herr]; [done|].
  intros s. exists tt, [Log SevError format (args e)].
  split; [by apply runs_emit|]. split; [|done]. by constructor.
Qed.

Lemma yields_cleanupRoutes_range P rules :
  tolerant P -> yields P (excused P) (cleanupRoutes_range K W rules).
Proof.
  intros HP. induction rules as [|r rules IH]; simpl.
  - apply yields_ret. by left.
  - destruct (reserved_table K r); [|exact IH].
    eapply yields_bind; [by apply yields_invoke|].
    intros [e|] Hex; [|exact IH].
    apply yields_ret. destruct Hex as [|Herr]; [done|by right].
Qed.

Lemma yields_cleanupRoutes P : tolerant P -> yields P (excused P) (cleanupRoutes K W).
Proof.
  intros HP s. unfold cleanupRoutes.
  destruct (call_error W (trace s) (netlink_RuleList (FAMILY_V4 K)))
    as [e|] eqn:Hl.
  - exists (Some (Wrapf e "error listing rules" [])),
      [Invoke (netlink_RuleList (FAMILY_V4 K))].
    split; [unfold runs, bind, RuleList; by rewrite Hl|].
    destruct HP as (Hcall & _ & Herr). split; [by constructor|].
    destruct Herr as [Herr|Hok]; [by right|]. by rewrite Hok in Hl.
  - destruct (yields_cleanupRoutes_range P (rules_listed W (trace s)) HP
                {| handler := handler s;
                   trace := trace s ++ [Invoke (netlink_RuleList (FAMILY_V4 K))] |})
      as (err & evs & Hrun & Hevs & Hex).
    exists err, (Invoke (netlink_RuleList (FAMILY_V4 K)) :: evs).
    split; [|split; [|exact Hex]].
    + unfold runs, bind, RuleList. rewrite Hl. simpl.
      unfold runs in Hrun. simpl in Hrun. rewrite Hrun.
      by rewrite <- app_assoc.
    + constructor; [apply HP|exact Hevs].
Qed.

Ltac yields_steps HP :=
  repeat first
    [ apply yields_ret; done
    | apply yields_log_error; assumption
    | eapply yields_bind;
      [ first [ by apply yields_Infof
              | by apply yields_invoke
              | by apply yields_cleanupRoutes
              | by apply yields_log_error ]
      | intros ? ? ] ].

Lemma yields_flushAndDeleteIPTableChains P table tableChain submarinerChain :
  tolerant P ->
  yields P (fun _ => True)
         (flushAndDeleteIPTableChains W table tableChain submarinerChain).
Proof.
  intros HP. unfold flushAndDeleteIPTableChains. yields_steps HP.
Qed.

Lemma yields_Stop P : tolerant P -> yields P (eq None) (Stop K W true).
Proof.
  intros HP. unfold Stop. simpl negb. cbv iota. yields_steps HP.
  eapply yields_bind; [by apply yields_flushAndDeleteIPTableChains|intros _ _].
  eapply yields_bind; [by apply yields_flushAndDeleteIPTableChains|intros _ _].
  by apply yields_ret.
Qed.

End Yields.

(** When the rules can be listed and no deletion fails, [cleanupRoutes]
    returns nil having deleted exactly the listed rules of the two reserved
    tables, each once and in the order of the list, and no rule of another
    table.  When the rules cannot be listed it deletes nothing and returns
    that error wrapped as "error listing rules". *)
Theorem cleanupRoutes_deletes_reserved_rules (K : Constants) (W : World) (s : State) :
  match call_error W (trace s) (netlink_RuleList (FAMILY_V4 K)) with
  | Some e =>
      runs (cleanupRoutes K W) s (Some (Wrapf e "error listing rules" []))
           [Invoke (netlink_RuleList (FAMILY_V4 K))] (handler s)
  | None =>
      (forall t r, call_error W t (netlink_RuleDel r) = None) ->
      runs (cleanupRoutes K W) s None
           (Invoke (netlink_RuleList (FAMILY_V4 K))
              :: (Invoke <$> (netlink_RuleDel
                                <$> filter (fun r => reserved_table K r = true)
                                           (rules_listed W (trace s)))))
           (handler s)
  end.
Proof.
  destruct (cleanupRoutes_runs K W s) as (err & attempted & Hrun & Hshape).
  destruct (call_error W (trace s) (netlink_RuleList (FAMILY_V4 K))).
  - by destruct Hshape as [-> ->].
  - intros Hok.
    by destruct (stops_no_failure W _ _ _ _ _ _ Hok Hshape) as [-> ->].
Qed.

Definition rule3 : Rule := {| Priority := 3; Table := 254 |}.

Lemma cleanupRoutes_deletes_reserved_rules_witness :
  calls (events_of (cleanupRoutes K0 (calm [rule1; rule3; rule2])) (state_of false []))
  = [netlink_RuleList 2; netlink_RuleDel rule1; netlink_RuleDel rule2].
Proof.
  pose proof (cleanupRoutes_deletes_reserved_rules K0 (calm [rule1; rule3; rule2])
                (state_of false [])) as H.
  simpl in H. specialize (H (fun _ _ => eq_refl)).
  by rewrite (runs_events_of _ _ _ _ _ H).
Defined.

(** A clean uninstall is silent: when no call fails, [Stop(true)] logs no
    error line. *)
Theorem clean_uninstall_logs_no_error (K : Constants) (W : World) (s : State) :
  (forall t c, call_error W t c = None) ->
  (Stop K W true s).1 = Returns None
  /\ Forall (fun e => is_error_line e = false) (events_of (Stop K W true) s).
Proof.
  intros Hok.
  assert (HP : tolerant W (fun e => is_error_line e = false))
    by (split; [done|split; [done|by right]]).
  destruct (yields_Stop K W _ HP s) as (res & evs & Hrun & Hevs & <-).
  rewrite (runs_events_of _ _ _ _ _ Hrun).
  by apply runs_result in Hrun as (-> & _).
Qed.

Lemma clean_uninstall_logs_no_error_witness :
  length (filter (fun e => is_error_line e = true)
                 (events_of (Stop K0 (calm [rule1; rule2]) true) (state_of true [epA])))
  = 0%nat.
Proof.
  destruct (clean_uninstall_logs_no_error K0 (calm [rule1; rule2])
              (state_of true [epA]) (fun _ _ => eq_refl)) as [_ H].
  vm_compute. reflexivity.
Defined.

Section Locking.

Variable K : Constants.
Variable W : World.










Lemma plain_Stop uninstall s :
  Forall (fun e => is_plain e = true) (events_of (Stop K W uninstall) s).
Proof.
  destruct uninstall.
  - assert (HP : tolerant W (fun e => is_plain e = true))
      by (split; [done|split; [done|by left]]).
    destruct (yields_Stop K W _ HP s) as (res & evs & Hrun & Hevs & _).
    by rewrite (runs_events_of _ _ _ _ _ Hrun).
  - unfold events_of. simpl. rewrite drop_all. constructor.
Qed.

End Locking.


(** [Stop] works outside the lock: it never takes the handler's mutex and
    never stores into the handler; all it appends to the trace are calls and
    log lines. *)
Theorem Stop_never_takes_the_lock (K : Constants) (W : World) (uninstall : bool)
    (s : State) :
  Forall (fun e => is_plain e = true) (events_of (Stop K W uninstall) s)
  /\ handler (Stop K W uninstall s).2 = handler s.
Proof.
  split; [apply plain_Stop|].
  destruct uninstall; [|done].
  destruct (Stop_runs K W s) as (evs & Hrun & _).
  by apply runs_result in Hrun as (_ & -> & _).
Qed.

(** With any backend other than wireguard, [LocalEndpointCreated] asks for
    the interface of the default route and never looks the wireguard device
    up.  When the interface is found it is stored as the cable routing
    interface under the lock and nil is returned; when it is not, the fatal
    line is logged and the process exits with the handler as it was: this
    branch has no error return. *)
Theorem LocalEndpointCreated_default_route (K : Constants) (W : World) (ep : Endpoint)
    (s : State) :
  String.eqb (Backend (Spec ep)) "wireguard" = false ->
  let c := netlink_GetDefaultGatewayInterface in
  filter is_InterfaceByName (calls (events_of (LocalEndpointCreated K W ep) s)) = []
  /\ match call_error W (trace s) c with
     | Some e =>
         LocalEndpointCreated K W ep s
         = (Exits,
            {| handler := handler s;
               trace := trace s
                          ++ [Invoke c;
                              Log SevFatal
                                  "Unable to find the default interface on host: %s"
                                  [OfErr e]] |})
     | None =>
         let i := Some (interface_found W (trace s) c) in
         runs (LocalEndpointCreated K W ep) s None
              [Invoke c; MutexLock; StoreCableRoutingInterface i; MutexUnlock]
              (set_cableRoutingInterface i (handler s))
     end.
Proof.
  intros Hb c.
  assert (Hrun : match call_error W (trace s) c with
     | Some e =>
         LocalEndpointCreated K W ep s
         = (Exits,
            {| handler := handler s;
               trace := trace s
                          ++ [Invoke c;
                              Log SevFatal
                                  "Unable to find the default interface on host: %s"
                                  [OfErr e]] |})
     | None =>
         let i := Some (interface_found W (trace s) c) in
         runs (LocalEndpointCreated K W ep) s None
              [Invoke c; MutexLock; StoreCableRoutingInterface i; MutexUnlock]
              (set_cableRoutingInterface i (handler s))
     end).
  { unfold runs, LocalEndpointCreated. rewrite Hb. subst c.
    unfold bind, lookup_interface.
    destruct (call_error W (trace s) netlink_GetDefaultGatewayInterface); simpl.
    - by rewrite <- app_assoc.
    - unfold locked, bind, emit, store_cableRoutingInterface, get_handler,
        put_handler, ret. simpl. by rewrite <- !app_assoc. }
  split; [|exact Hrun].
  destruct (call_error W (trace s) c).
  - rewrite (events_of_trace _ _ _ (f_equal (fun r => trace r.2) Hrun)). done.
  - rewrite (runs_events_of _ _ _ _ _ Hrun). done.
Qed.

Lemma LocalEndpointCreated_default_route_witness :
  cableRoutingInterface (handler (LocalEndpointCreated K0 (calm []) epA
                                    (state_of false [])).2)
  = Some {| Index := 7; IfName := "submariner" |}.
Proof.
  destruct (LocalEndpointCreated_default_route K0 (calm []) epA (state_of false [])
              eq_refl) as [_ H].
  simpl in H. unfold runs in H. by rewrite H.
Defined.

(** * Construction and start-up: [NewHandler] and [Init] *)

(** The objects that [NewHandler] and [Init] obtain, store and pass on (the
    clients, the controllers, the stop channel, the watcher configuration)
    are opaque to them; the model names them by reference. *)
Definition Ref := N.

(** [HandlerConfig].  [WatcherConfig] is a pointer and [NewOVSDBClient] a
    function value: either can be nil. *)
Record HandlerConfig := {
  Namespace : string;
  ConfigClusterCIDR : list string;
  ConfigServiceCIDR : list string;
  SubmClient : Ref;
  K8sClient : Ref;
  DynClient : Ref;
  WatcherConfig : option Ref;
  NewOVSDBClient : option Ref;
}.

Definition set_NewOVSDBClient (f : option Ref) (c : HandlerConfig) : HandlerConfig :=
  {| Namespace := Namespace c;
     ConfigClusterCIDR := ConfigClusterCIDR c;
     ConfigServiceCIDR := ConfigServiceCIDR c;
     SubmClient := SubmClient c; K8sClient := K8sClient c; DynClient := DynClient c;
     WatcherConfig := WatcherConfig c;
     NewOVSDBClient := f |}.

(** The [Handler] struct in full: the embedded configuration, the fields the
    event methods work on ([fields]: the [Handler] above, which carries the
    two CIDR lists of the configuration), and the collaborators. *)
Record HandlerStruct := {
  config : HandlerConfig;
  fields : Handler;
  netLink : Ref;
  ipt : Ref;
  gatewayRouteController : option Ref;
  nonGatewayRouteController : option Ref;
  stopCh : Ref;
}.

Definition set_gatewayRouteController (r : option Ref) (h : HandlerStruct)
    : HandlerStruct :=
  {| config := config h; fields := fields h; netLink := netLink h; ipt := ipt h;
     gatewayRouteController := r;
     nonGatewayRouteController := nonGatewayRouteController h;
     stopCh := stopCh h |}.

Definition set_nonGatewayRouteController (r : option Ref) (h : HandlerStruct)
    : HandlerStruct :=
  {| config := config h; fields := fields h; netLink := netLink h; ipt := ipt h;
     gatewayRouteController := gatewayRouteController h;
     nonGatewayRouteController := r;
     stopCh := stopCh h |}.

(** The calls of [NewHandler] and [Init], with their arguments. *)
Inductive SetupCall :=
| iptables_New
| LegacyCleanup
| initIPtablesChains
| startRouteConfigSyncer (stop : Ref)
| NewConnectionHandler (k8sClient dynClient : Ref)
| initClients (connectionHandler : Ref) (newOVSDBClient : option Ref)
| NewGatewayRouteController (watcherConfig connectionHandler : Ref)
                            (namespace : string)
| NewNonGatewayRouteController (watcherConfig connectionHandler k8sClient : Ref)
                               (namespace : string).

Inductive SetupEvent :=
| Did (c : SetupCall)
| FatalLine (format : string) (args : list LogArg).

(** What the platform answers, as a function of what happened so far.
    [netlink.New()] and [make(chan struct{})] only allocate and are read
    as values. *)
Record Platform := {
  setup_error : list SetupEvent -> SetupCall -> option error;
  setup_value : list SetupEvent -> SetupCall -> Ref;
  netlink_New : list SetupEvent -> Ref;
  make_chan : list SetupEvent -> Ref;
  libovsdbclient_NewOVSDBClient : Ref;
}.

(** A function returns, or the process exits under it ([Fatalf]), or it
    panics on a nil pointer. *)
Inductive Ending (A : Type) :=
| Returned (a : A)
| Exited
| Panicked.
Arguments Returned {A} a.
Arguments Exited {A}.
Arguments Panicked {A}.

(** Computations over a mutable [S] and the trace of setup events. *)
Definition Setup (S A : Type) : Type :=
  S * list SetupEvent -> Ending A * (S * list SetupEvent).

Definition unit_ {S A} (a : A) : Setup S A := fun s => (Returned a, s).

Definition and_then {S A B} (m : Setup S A) (k : A -> Setup S B) : Setup S B :=
  fun s => match m s with
           | (Returned a, s') => k a s'
           | (Exited, s') => (Exited, s')
           | (Panicked, s') => (Panicked, s')
           end.

Declare Scope setup_scope.
Delimit Scope setup_scope with setup.
Notation "x <- m ;; k" := (and_then m (fun x => k))
  (at level 100, m at next level, right associativity) : setup_scope.
Notation "m ;;; k" := (and_then m (fun _ => k))
  (at level 100, right associativity) : setup_scope.

Definition panic {S A} : Setup S A := fun s => (Panicked, s).

Definition this {S} : Setup S S := fun s => (Returned s.1, s).

Definition store {S} (f : S -> S) : Setup S unit :=
  fun s => (Returned tt, (f s.1, s.2)).

Definition setup_calls (t : list SetupEvent) : list SetupCall :=
  omap (fun e => match e with Did c => Some c | FatalLine _ _ => None end) t.

(** What a computation appended to the trace. *)
Definition did {S A} (m : Setup S A) (s : S) (t : list SetupEvent)
    : list SetupEvent :=
  drop (length t) (m (s, t)).2.2.

Section Startup.

Variable P : Platform.

Local Open Scope setup_scope.

(** A call that returns a value and an error. *)
Definition attempt {S} (c : SetupCall) : Setup S (Ref * option error) :=
  fun s => (Returned (setup_value P s.2 c, setup_error P s.2 c),
            (s.1, s.2 ++ [Did c])).

(** A call that returns no error. *)
Definition perform {S} (c : SetupCall) : Setup S Ref :=
  fun s => (Returned (setup_value P s.2 c), (s.1, s.2 ++ [Did c])).

Definition setup_Fatalf {S A} (format : string) (args : list LogArg) : Setup S A :=
  fun s => (Exited, (s.1, s.2 ++ [FatalLine format args])).

Definition allocate {S} (new : Platform -> list SetupEvent -> Ref) : Setup S Ref :=
  fun s => (Returned (new P s.2), s).

(** [if err != nil { return wrap(err) }], then the rest. *)
Definition unless {S} (err : option error) (wrap : error -> error)
    (rest : Setup S (option error)) : Setup S (option error) :=
  match err with
  | Some e => unit_ (Some (wrap e))
  | None => rest
  end.

Definition NewHandler (cfg : option HandlerConfig) : Setup unit HandlerStruct :=
  r <- attempt iptables_New ;;
  (match r.2 with
   | Some err =>
       setup_Fatalf "Error initializing iptables in OVN routeagent handler: %s"
                    [OfErr err]
   | None => unit_ tt
   end) ;;;
  match cfg with
  | None => panic
  | Some c =>
      nl <- allocate netlink_New ;;
      ch <- allocate make_chan ;;
      let h := {| config := c;
                  fields := {| ServiceCIDR := ConfigServiceCIDR c;
                               ClusterCIDR := ConfigClusterCIDR c;
                               cableRoutingInterface := None;
                               remoteEndpoints := ∅;
                               isGateway := false |};
                  netLink := nl;
                  ipt := r.1;
                  gatewayRouteController := None;
                  nonGatewayRouteController := None;
                  stopCh := ch |} in
      match NewOVSDBClient (config h) with
      | None =>
          unit_ {| config := set_NewOVSDBClient
                               (Some (libovsdbclient_NewOVSDBClient P)) (config h);
                   fields := fields h; netLink := netLink h; ipt := ipt h;
                   gatewayRouteController := gatewayRouteController h;
                   nonGatewayRouteController := nonGatewayRouteController h;
                   stopCh := stopCh h |}
      | Some _ => unit_ h
      end
  end.

(** [*ovn.WatcherConfig]. *)
Definition deref_WatcherConfig : Setup HandlerStruct Ref :=
  ovn <- this ;;
  match WatcherConfig (config ovn) with
  | None => panic
  | Some w => unit_ w
  end.

Definition Init : Setup HandlerStruct (option error) :=
  perform LegacyCleanup ;;;
  r <- attempt initIPtablesChains ;;
  unless r.2 id (
    ovn <- this ;;
    perform (startRouteConfigSyncer (stopCh ovn)) ;;;
    ovn <- this ;;
    connectionHandler <- perform (NewConnectionHandler (K8sClient (config ovn))
                                                       (DynClient (config ovn))) ;;
    ovn <- this ;;
    r <- attempt (initClients connectionHandler (NewOVSDBClient (config ovn))) ;;
    unless r.2 (fun e => Wrapf e "error getting connection handler to connect to OvnDB"
                               []) (
      w <- deref_WatcherConfig ;;
      ovn <- this ;;
      g <- attempt (NewGatewayRouteController w connectionHandler
                                              (Namespace (config ovn))) ;;
      unless g.2 id (
        store (set_gatewayRouteController (Some g.1)) ;;;
        unless g.2 id (
          w <- deref_WatcherConfig ;;
          ovn <- this ;;
          n <- attempt (NewNonGatewayRouteController w connectionHandler
                                                     (K8sClient (config ovn))
                                                     (Namespace (config ovn))) ;;
          unless n.2 id (
            store (set_nonGatewayRouteController (Some n.1)) ;;;
            unit_ n.2))))).

End Startup.

(** The calls of [Init] on [ovn], in the order of the source, when the
    watcher configuration is [w].  The connection handler handed to the last
    three is the one that [NewConnectionHandler] returned. *)
Definition Init_plan (P : Platform) (ovn : HandlerStruct) (w : Ref)
    (t : list SetupEvent) : list SetupCall :=
  let k8s := K8sClient (config ovn) in
  let ns := Namespace (config ovn) in
  let connect := NewConnectionHandler k8s (DynClient (config ovn)) in
  let ch := setup_value P (t ++ [Did LegacyCleanup; Did initIPtablesChains;
                                 Did (startRouteConfigSyncer (stopCh ovn))])
                        connect in
  [LegacyCleanup; initIPtablesChains; startRouteConfigSyncer (stopCh ovn); connect;
   initClients ch (NewOVSDBClient (config ovn));
   NewGatewayRouteController w ch ns;
   NewNonGatewayRouteController w ch k8s ns].

(** The calls whose error result [NewHandler] and [Init] look at. *)
Definition fallible (c : SetupCall) : bool :=
  match c with
  | LegacyCleanup | startRouteConfigSyncer _ | NewConnectionHandler _ _ => false
  | _ => true
  end.

(** Running a list of calls up to the first one that fails: the calls made,
    and the failing call with its error. *)
Fixpoint until_failure (P : Platform) (t : list SetupEvent) (plan : list SetupCall)
    : list SetupCall * option (SetupCall * error) :=
  match plan with
  | [] => ([], None)
  | c :: rest =>
      match (if fallible c then setup_error P t c else None) with
      | Some e => ([c], Some (c, e))
      | None =>
          let r := until_failure P (t ++ [Did c]) rest in
          (c :: r.1, r.2)
      end
  end.

(** How [Init] reports the error of a call: the error of [initClients] is
    wrapped, the others are returned as they are. *)
Definition Init_error (failed : SetupCall * error) : error :=
  match failed.1 with
  | initClients _ _ =>
      Wrapf failed.2 "error getting connection handler to connect to OvnDB" []
  | _ => failed.2
  end.

(** Sample platforms: one where every call succeeds, one where the calls
    selected by [bad] fail. *)
Definition faulty (bad : SetupCall -> bool) : Platform := {|
  setup_error := fun _ c => if bad c then Some (Errno "injected") else None;
  setup_value := fun t _ => N.of_nat (length t);
  netlink_New := fun _ => 100%N;
  make_chan := fun _ => 101%N;
  libovsdbclient_NewOVSDBClient := 102%N;
|}.

Definition steady : Platform := faulty (fun _ => false).

Definition cfg0 : HandlerConfig := {|
  Namespace := "submariner-operator";
  ConfigClusterCIDR := ["10.0.0.0/16"];
  ConfigServiceCIDR := ["100.64.0.0/16"];
  SubmClient := 1%N; K8sClient := 2%N; DynClient := 3%N;
  WatcherConfig := Some 4%N;
  NewOVSDBClient := None;
|}.

Definition ovn0 : HandlerStruct := {|
  config := set_NewOVSDBClient (Some 102%N) cfg0;
  fields := handler (state_of false []);
  netLink := 100%N; ipt := 0%N;
  gatewayRouteController := None;
  nonGatewayRouteController := None;
  stopCh := 101%N;
|}.

Ltac flatten_trace := repeat (rewrite <- app_assoc); simpl.

Ltac setup_steps :=
  unfold Init, NewHandler, deref_WatcherConfig, and_then, attempt, perform, unless,
    this, store, unit_, panic, setup_Fatalf, allocate;
  simpl; flatten_trace;
  repeat match goal with
         | |- context [match setup_error ?P ?t ?c with _ => _ end] =>
             destruct (setup_error P t c) eqn:?; simpl; flatten_trace
         end.

Lemma did_trace {S A} (m : Setup S A) s t evs :
  (m (s, t)).2.2 = t ++ evs -> did m s t = evs.
Proof. unfold did. intros ->. by rewrite drop_app_length. Qed.

(** The struct apart from the two controllers. *)
Definition same_but_controllers (a b : HandlerStruct) : Prop :=
  config a = config b /\ fields a = fields b /\ netLink a = netLink b
  /\ ipt a = ipt b /\ stopCh a = stopCh b.

Lemma Init_cases (P : Platform) (ovn : HandlerStruct) (w : Ref) (t : list SetupEvent) :
  WatcherConfig (config ovn) = Some w ->
  let r := until_failure P t (Init_plan P ovn w t) in
  exists ovn',
    Init P (ovn, t) = (Returned (Init_error <$> r.2), (ovn', t ++ (Did <$> r.1)))
    /\ same_but_controllers ovn' ovn
    /\ (if decide (length r.1 = 7%nat)
        then is_Some (gatewayRouteController ovn')
        else gatewayRouteController ovn' = gatewayRouteController ovn)
    /\ match r.2 with
       | None => is_Some (nonGatewayRouteController ovn')
       | Some _ => nonGatewayRouteController ovn' = nonGatewayRouteController ovn
       end.
Proof.
  intros Hw r. subst r. unfold Init_plan. cbn [until_failure fallible].
  destruct ovn as [[] ? ? ? ? ? ?]. simpl in Hw. subst.
  setup_steps; (eexists; split; [reflexivity|]); by repeat split.
Qed.

(** On a handler whose watcher configuration is set, [Init] always returns,
    and it is its seven calls run in the order of the source up to the first
    one that fails: it makes exactly those calls and returns the error of the
    failing one (wrapped when it is [initClients]), or nil when none
    fails. *)
Theorem Init_runs_until_first_failure (P : Platform) (ovn : HandlerStruct) (w : Ref)
    (t : list SetupEvent) :
  WatcherConfig (config ovn) = Some w ->
  let r := until_failure P t (Init_plan P ovn w t) in
  (Init P (ovn, t)).1 = Returned (Init_error <$> r.2)
  /\ did (Init P) ovn t = Did <$> r.1.
Proof.
  intros Hw r. destruct (Init_cases P ovn w t Hw) as (ovn' & Hrun & _).
  split; [by rewrite Hrun|]. apply did_trace. by rewrite Hrun.
Qed.

Lemma Init_runs_until_first_failure_witness :
  (Init (faulty (fun c => match c with initClients _ _ => true | _ => false end))
        (ovn0, [])).1
  = Returned (Some (Wrapf (Errno "injected")
                          "error getting connection handler to connect to OvnDB" []))
  /\ length (did (Init (faulty (fun c => match c with
                                          | initClients _ _ => true
                                          | _ => false
                                          end))) ovn0 []) = 5%nat.
Proof.
  destruct (Init_runs_until_first_failure
              (faulty (fun c => match c with initClients _ _ => true | _ => false end))
              ovn0 4%N [] eq_refl) as [Hr Hd].
  split; [exact Hr|]. by rewrite Hd.
Defined.

Lemma setup_calls_Did (cs : list SetupCall) : setup_calls (Did <$> cs) = cs.
Proof.
  induction cs as [|c cs IH]; [done|].
  rewrite fmap_cons. unfold setup_calls in *. cbn [omap list_omap].
  by f_equal.
Qed.

Lemma until_failure_prefix (P : Platform) plan t :
  (until_failure P t plan).1 `prefix_of` plan.
Proof.
  revert t. induction plan as [|c rest IH]; intros t; [done|]. simpl.
  destruct (if fallible c then setup_error P t c else None).
  - by exists rest.
  - simpl. by apply prefix_cons.
Qed.

Lemma until_failure_complete (P : Platform) plan t :
  (until_failure P t plan).2 = None -> (until_failure P t plan).1 = plan.
Proof.
  revert t. induction plan as [|c rest IH]; intros t; [done|]. simpl.
  destruct (if fallible c then setup_error P t c else None); [done|].
  simpl. intros H. by rewrite IH.
Qed.

Lemma until_failure_stops (P : Platform) plan t c e :
  (until_failure P t plan).2 = Some (c, e) ->
  last (until_failure P t plan).1 = Some c.
Proof.
  revert t. induction plan as [|c' rest IH]; intros t; [done|]. simpl.
  destruct (if fallible c' then setup_error P t c' else None).
  - by intros [= <- <-].
  - simpl. intros H. specialize (IH _ H).
    destruct (until_failure P (t ++ [Did c']) rest).1; [done|].
    by rewrite last_cons, IH.
Qed.

(** [Init] on a handler whose [WatcherConfig] is nil. *)
Lemma Init_nil_cases (P : Platform) (ovn : HandlerStruct) (w : Ref)
    (t : list SetupEvent) :
  WatcherConfig (config ovn) = None ->
  let r := until_failure P t (take 5 (Init_plan P ovn w t)) in
  Init P (ovn, t)
  = (match r.2 with
     | Some failed => Returned (Some (Init_error failed))
     | None => Panicked
     end, (ovn, t ++ (Did <$> r.1))).
Proof.
  intros Hw r. subst r. unfold Init_plan. cbn [take until_failure fallible].
  destruct ovn as [[] ? ? ? ? ? ?]. simpl in Hw. subst.
  by setup_steps.
Qed.

Lemma NewHandler_cases (P : Platform) (cfg : option HandlerConfig)
    (t : list SetupEvent) :
  match setup_error P t iptables_New, cfg with
  | Some e, _ =>
      NewHandler P cfg (tt, t)
      = (Exited,
         (tt, t ++ [Did iptables_New;
                    FatalLine "Error initializing iptables in OVN routeagent handler: %s"
                              [OfErr e]]))
  | None, None => NewHandler P cfg (tt, t) = (Panicked, (tt, t ++ [Did iptables_New]))
  | None, Some c =>
      NewHandler P cfg (tt, t)
      = (Returned
           {| config := set_NewOVSDBClient
                          (Some (default (libovsdbclient_NewOVSDBClient P)
                                         (NewOVSDBClient c))) c;
              fields := {| ServiceCIDR := ConfigServiceCIDR c;
                           ClusterCIDR := ConfigClusterCIDR c;
                           cableRoutingInterface := None;
                           remoteEndpoints := ∅;
                           isGateway := false |};
              netLink := netlink_New P (t ++ [Did iptables_New]);
              ipt := setup_value P t iptables_New;
              gatewayRouteController := None;
              nonGatewayRouteController := None;
              stopCh := make_chan P (t ++ [Did iptables_New]) |},
         (tt, t ++ [Did iptables_New]))
  end.
Proof.
  unfold NewHandler, and_then, attempt, setup_Fatalf, unit_, panic, allocate. simpl.
  destruct (setup_error P t iptables_New); simpl.
  - by rewrite <- app_assoc.
  - destruct cfg as [[? ? ? ? ? ? ? [f|]]|]; reflexivity.
Qed.

(** When [Init] returns nil, the watcher configuration was set, all seven
    calls were made in the order of the source, both route controllers are
    stored, and nothing else of the handler has changed. *)
Theorem Init_success_stores_both_controllers (P : Platform) (ovn : HandlerStruct)
    (t : list SetupEvent) :
  (Init P (ovn, t)).1 = Returned None ->
  let ovn' := (Init P (ovn, t)).2.1 in
  exists w,
    WatcherConfig (config ovn) = Some w
    /\ setup_calls (did (Init P) ovn t) = Init_plan P ovn w t
    /\ is_Some (gatewayRouteController ovn')
    /\ is_Some (nonGatewayRouteController ovn')
    /\ same_but_controllers ovn' ovn.
Proof.
  intros Hnil ovn'. subst ovn'.
  destruct (WatcherConfig (config ovn)) as [w|] eqn:Hw.
  - exists w. split; [done|].
    pose proof (Init_cases P ovn w t Hw) as H. cbv zeta in H.
    pose proof (until_failure_complete P (Init_plan P ovn w t) t) as Hall.
    destruct (until_failure P t (Init_plan P ovn w t)) as [cs [failed|]];
      destruct H as (ovn' & Hrun & Hsame & Hg & Hn);
      rewrite Hrun in Hnil |- *; cbn [fst snd fmap option_fmap option_map] in *;
      [discriminate Hnil|].
    rewrite (Hall eq_refl) in Hrun, Hg.
    rewrite (did_trace _ _ _ _ (f_equal (fun r => r.2.2) Hrun)), setup_calls_Did.
    split; [done|]. split; [exact Hg|]. by split.
  - rewrite (Init_nil_cases P ovn 0%N t Hw) in Hnil. cbn [fst] in Hnil.
    by destruct (until_failure P t (take 5 (Init_plan P ovn 0%N t))).2.
Qed.

Lemma Init_success_stores_both_controllers_witness :
  length (setup_calls (did (Init steady) ovn0 [])) = 7%nat
  /\ is_Some (nonGatewayRouteController (Init steady (ovn0, [])).2.1).
Proof.
  destruct (Init_success_stores_both_controllers steady ovn0 [] eq_refl)
    as (w & Hw & Hcalls & _ & Hn & _).
  split; [by rewrite Hcalls|exact Hn].
Defined.

(** An error return of [Init] leaves the non-gateway controller as it was.
    The gateway controller is as it was too, unless the call that failed is
    [NewNonGatewayRouteController]: then the gateway controller has already
    been stored, and [Init] does not take it back. *)
Theorem Init_error_return_keeps_what_it_stored (P : Platform) (ovn : HandlerStruct)
    (w : Ref) (t : list SetupEvent) (err : error) :
  WatcherConfig (config ovn) = Some w ->
  (Init P (ovn, t)).1 = Returned (Some err) ->
  let ovn' := (Init P (ovn, t)).2.1 in
  nonGatewayRouteController ovn' = nonGatewayRouteController ovn
  /\ match last (setup_calls (did (Init P) ovn t)) with
     | Some (NewNonGatewayRouteController _ _ _ _) =>
         is_Some (gatewayRouteController ovn')
     | _ => gatewayRouteController ovn' = gatewayRouteController ovn
     end.
Proof.
  intros Hw Herr ovn'. subst ovn'.
  pose proof (Init_cases P ovn w t Hw) as H. cbv zeta in H.
  pose proof (until_failure_stops P (Init_plan P ovn w t) t) as Hstops.
  pose proof (until_failure_prefix P (Init_plan P ovn w t) t) as [rest Hpre].
  destruct (until_failure P t (Init_plan P ovn w t)) as [cs [[c e]|]];
    destruct H as (ovn' & Hrun & _ & Hg & Hn);
    rewrite (did_trace _ _ _ _ (f_equal (fun r => r.2.2) Hrun)), setup_calls_Did;
    rewrite Hrun in Herr |- *; cbn [fst snd fmap option_fmap option_map] in *;
    [|discriminate Herr].
  split; [exact Hn|].
  rewrite (Hstops _ _ eq_refl).
  pose proof (Hstops _ _ eq_refl) as Hlast.
  destruct (decide (length cs = 7%nat)) as [Hlen|Hlen].
  - assert (Hall : cs = Init_plan P ovn w t).
    { apply (f_equal length) in Hpre as Hl. rewrite length_app, Hlen in Hl.
      destruct rest; [by rewrite Hpre, app_nil_r|simpl in Hl; lia]. }
    rewrite Hall in Hlast. simpl in Hlast. injection Hlast as <-. exact Hg.
  - destruct c; try exact Hg.
    exfalso. apply Hlen.
    unfold Init_plan in Hpre.
    destruct cs as [|c1 [|c2 [|c3 [|c4 [|c5 [|c6 [|c7 [|c8 more]]]]]]]];
      simpl in Hlast, Hpre; try done; simplify_eq.
Qed.

Lemma Init_error_return_keeps_what_it_stored_witness :
  is_Some (gatewayRouteController
             (Init (faulty (fun c => match c with
                                     | NewNonGatewayRouteController _ _ _ _ => true
                                     | _ => false
                                     end)) (ovn0, [])).2.1)
  /\ nonGatewayRouteController
       (Init (faulty (fun c => match c with
                               | NewNonGatewayRouteController _ _ _ _ => true
                               | _ => false
                               end)) (ovn0, [])).2.1 = None.
Proof.
  destruct (Init_error_return_keeps_what_it_stored
              (faulty (fun c => match c with
                                | NewNonGatewayRouteController _ _ _ _ => true
                                | _ => false
                                end)) ovn0 4%N [] (Errno "injected") eq_refl eq_refl)
    as [Hn Hg].
  split; [exact Hg|exact Hn].
Defined.

(** On a handler whose [WatcherConfig] is nil, [Init] never returns nil.  It
    returns the error of [initIPtablesChains] or of [initClients] when one of
    them fails; otherwise it panics on the nil pointer, after its first five
    calls (the route-config syncer is started by then) and before it builds
    or stores a controller. *)
Theorem Init_nil_WatcherConfig_panics (P : Platform) (ovn : HandlerStruct)
    (t : list SetupEvent) :
  WatcherConfig (config ovn) = None ->
  let r := until_failure P t (take 5 (Init_plan P ovn 0%N t)) in
  (Init P (ovn, t)).2.1 = ovn
  /\ did (Init P) ovn t = Did <$> r.1
  /\ match r.2 with
     | Some failed => (Init P (ovn, t)).1 = Returned (Some (Init_error failed))
     | None =>
         (Init P (ovn, t)).1 = Panicked
         /\ r.1 = take 5 (Init_plan P ovn 0%N t)
     end.
Proof.
  intros Hw r. subst r.
  pose proof (Init_nil_cases P ovn 0%N t Hw) as Hrun. cbv zeta in Hrun.
  pose proof (until_failure_complete P (take 5 (Init_plan P ovn 0%N t)) t) as Hall.
  rewrite (did_trace _ _ _ _ (f_equal (fun r => r.2.2) Hrun)). rewrite Hrun.
  destruct (until_failure P t (take 5 (Init_plan P ovn 0%N t))) as [cs [failed|]];
    cbn [fst snd] in *; [done|].
  by rewrite (Hall eq_refl).
Qed.

Definition ovn_nil : HandlerStruct := {|
  config := {| Namespace := "submariner-operator";
               ConfigClusterCIDR := ["10.0.0.0/16"];
               ConfigServiceCIDR := ["100.64.0.0/16"];
               SubmClient := 1%N; K8sClient := 2%N; DynClient := 3%N;
               WatcherConfig := None;
               NewOVSDBClient := Some 102%N |};
  fields := handler (state_of false []);
  netLink := 100%N; ipt := 0%N;
  gatewayRouteController := None;
  nonGatewayRouteController := None;
  stopCh := 101%N;
|}.

Lemma Init_nil_WatcherConfig_panics_witness :
  (Init steady (ovn_nil, [])).1 = Panicked
  /\ length (did (Init steady) ovn_nil []) = 5%nat.
Proof.
  destruct (Init_nil_WatcherConfig_panics steady ovn_nil [] eq_refl)
    as (_ & Hd & Hp & _).
  split; [exact Hp|]. by rewrite Hd.
Defined.

(** Whatever the platform answers, [Init] never ends the process, and it
    changes nothing of the handler but its two controllers: the
    configuration, the fields the event methods work on (remote endpoints,
    gateway role, cable routing interface), and the netlink, iptables and
    stop-channel handles are as before. *)
Theorem Init_changes_only_the_controllers (P : Platform) (ovn : HandlerStruct)
    (t : list SetupEvent) :
  (Init P (ovn, t)).1 <> Exited
  /\ same_but_controllers (Init P (ovn, t)).2.1 ovn.
Proof.
  destruct (WatcherConfig (config ovn)) as [w|] eqn:Hw.
  - destruct (Init_cases P ovn w t Hw) as (ovn' & Hrun & Hsame & _).
    rewrite Hrun. by split.
  - rewrite (Init_nil_cases P ovn 0%N t Hw). cbn [fst snd]. split; [|done].
    by destruct (until_failure P t (take 5 (Init_plan P ovn 0%N t))).2.
Qed.

(** [NewHandler] asks for iptables first.  When that fails the process exits
    after the fatal line, a nil configuration included.  Otherwise a nil
    configuration panics, and any other gives a handler that is not a
    gateway, knows no remote endpoint and no cable routing interface, has no
    controller, carries the configuration's CIDR lists, and always has an
    OVSDB client constructor: the configuration's own when it has one, the
    library's when it has none. *)
Theorem NewHandler_fresh_handler (P : Platform) (cfg : option HandlerConfig)
    (t : list SetupEvent) :
  match setup_error P t iptables_New, cfg with
  | Some e, _ =>
      NewHandler P cfg (tt, t)
      = (Exited,
         (tt, t ++ [Did iptables_New;
                    FatalLine "Error initializing iptables in OVN routeagent handler: %s"
                              [OfErr e]]))
  | None, None => (NewHandler P cfg (tt, t)).1 = Panicked
  | None, Some c =>
      exists h,
        NewHandler P cfg (tt, t) = (Returned h, (tt, t ++ [Did iptables_New]))
        /\ isGateway (fields h) = false
        /\ remoteEndpoints (fields h) = ∅
        /\ cableRoutingInterface (fields h) = None
        /\ ServiceCIDR (fields h) = ConfigServiceCIDR c
        /\ ClusterCIDR (fields h) = ConfigClusterCIDR c
        /\ gatewayRouteController h = None
        /\ nonGatewayRouteController h = None
        /\ config h = set_NewOVSDBClient (NewOVSDBClient (config h)) c
        /\ NewOVSDBClient (config h)
           = Some (default (libovsdbclient_NewOVSDBClient P) (NewOVSDBClient c))
  end.
Proof.
  pose proof (NewHandler_cases P cfg t) as H.
  destruct (setup_error P t iptables_New); [exact H|].
  destruct cfg as [c|]; [|by rewrite H].
  eexists. split; [exact H|]. by repeat split.
Qed.

(** A handler made by [NewHandler] is ready for [Init]: the syncer is started
    on the stop channel [NewHandler] made, [initClients] is never handed a
    nil constructor (it gets the configuration's, or the library's when the
    configuration has none), and [Init] can only panic when the
    configuration came without a watcher configuration. *)
Theorem Init_after_NewHandler (P : Platform) (c : HandlerConfig) (h : HandlerStruct)
    (t t' : list SetupEvent) :
  NewHandler P (Some c) (tt, t) = (Returned h, (tt, t')) ->
  let made := setup_calls (did (Init P) h t') in
  (forall stop, startRouteConfigSyncer stop ∈ made ->
                stop = make_chan P (t ++ [Did iptables_New]))
  /\ (forall ch f, initClients ch f ∈ made ->
                   f = Some (default (libovsdbclient_NewOVSDBClient P)
                                     (NewOVSDBClient c)))
  /\ ((Init P (h, t')).1 = Panicked -> WatcherConfig c = None).
Proof.
  intros Hnew made. subst made.
  pose proof (NewHandler_cases P (Some c) t) as H.
  destruct (setup_error P t iptables_New); [by rewrite H in Hnew|].
  rewrite H in Hnew. injection Hnew as <- <-. clear H.
  set (t1 := t ++ [Did iptables_New]).
  set (h := {| config := _ |}).
  assert (Hin : forall x, x ∈ setup_calls (did (Init P) h t1) ->
                          exists w, x ∈ Init_plan P h w t1).
  { intros x.
    destruct (WatcherConfig (config h)) as [w|] eqn:Hw.
    - destruct (Init_cases P h w t1 Hw) as (h' & Hrun & _).
      rewrite (did_trace _ _ _ _ (f_equal (fun r => r.2.2) Hrun)), setup_calls_Did.
      intros Hx. exists w.
      exact (elem_of_prefix _ _ _ Hx (until_failure_prefix P _ t1)).
    - pose proof (Init_nil_cases P h 0%N t1 Hw) as Hrun. cbv zeta in Hrun.
      rewrite (did_trace _ _ _ _ (f_equal (fun r => r.2.2) Hrun)), setup_calls_Did.
      intros Hx. exists 0%N.
      pose proof (elem_of_prefix _ _ _ Hx (until_failure_prefix P _ t1)) as Hx'.
      exact (elem_of_prefix _ _ _ Hx' (prefix_take _ 5)). }
  split; [|split].
  - intros stop Hx. destruct (Hin _ Hx) as [w Hp].
    unfold Init_plan in Hp. set_unfold.
    destruct_or!; by simplify_eq.
  - intros ch f Hx. destruct (Hin _ Hx) as [w Hp].
    unfold Init_plan in Hp. set_unfold.
    destruct_or!; by simplify_eq.
  - intros Hp.
    destruct (WatcherConfig c) as [w|] eqn:Hw; [|done].
    destruct (Init_cases P h w t1) as (h' & Hrun & _); [by subst h|].
    by rewrite Hrun in Hp.
Qed.

Lemma Init_after_NewHandler_witness :
  NewHandler steady (Some cfg0) (tt, []) = (Returned ovn0, (tt, [Did iptables_New]))
  /\ ((Init steady (ovn0, [Did iptables_New])).1 = Panicked
      -> WatcherConfig cfg0 = None).
Proof.
  split; [reflexivity|].
  exact (proj2 (proj2 (Init_after_NewHandler steady cfg0 ovn0 [] [Did iptables_New]
                         eq_refl))).
Defined.
